(** * Extension-request policy: the roster record and the decision engine

    A shallow embedding of [src/record.py] (class [StudentRecord]) and of
    [src/policy.py] (class [Policy]), with the properties the specification
    states about them.

    Python values are modelled as data: integers as [Z], dictionaries as
    [gmap], lists as [list], [Optional[T]] as [option T].  Mutable objects
    become explicit state, exceptions an outcome next to that state (what
    was mutated before a [raise] stays mutated). *)

From Stdlib Require Import ZArith Ascii String List Bool Lia.
From stdpp Require Import base option list strings pretty gmap fin_maps.

Local Open Scope string_scope.
Local Open Scope Z_scope.

(** ** Python values and the builtins the code calls on them *)

Module Py.

(** The values a roster cell holds ([table_record : Dict[str, Any]]): blank
    cells and text arrive as [str], numbers as [int], flags as [bool].
    Floats are not modelled. *)
Inductive value :=
| VNone
| VBool (b : bool)
| VInt (z : Z)
| VStr (s : string).

(** Exceptions raised by the modelled code.  [StudentRecordError] keeps, as
    fields, what the source formats into its message: the assignment
    identifier, the whole [table_record], the [table_index] and the
    exception that was caught. *)
Inductive exc :=
| KeyError (key : string)
| ValueError (msg : string)
| AttributeError (msg : string)
| StudentRecordError (assignment_id : string) (table_record : gmap string value)
    (table_index : Z) (err : exc)
| KnownError (msg : string).

(** [bool(v)]: the truth value Python gives [v] in an [if]. *)
Definition truthy (v : value) : bool :=
  match v with
  | VNone => false
  | VBool b => b
  | VInt z => negb (Z.eqb z 0)
  | VStr s => negb (String.eqb s "")
  end.

(** Truth value of an [Optional[int]]: [None] and [0] are both false. *)
Definition truthy_opt_int (o : option Z) : bool :=
  match o with
  | None => false
  | Some z => negb (Z.eqb z 0)
  end.

(** Truth value of an [Optional[str]]: [None] and the empty string are false. *)
Definition truthy_opt_str (o : option string) : bool :=
  match o with
  | None => false
  | Some s => negb (String.eqb s "")
  end.

(** [str(v)].  An [int] prints in decimal with a leading [-] when negative. *)
Definition str (v : value) : string :=
  match v with
  | VNone => "None"
  | VBool true => "True"
  | VBool false => "False"
  | VInt z => pretty z
  | VStr s => s
  end.

(** [c.isspace()] on the ASCII range: tab, line feed, vertical tab, form
    feed, carriage return, the four separators 0x1c-0x1f and space.  Cells
    are taken to be ASCII text; the Unicode spaces above 0x7f are outside
    the model. *)
Definition is_space (c : ascii) : bool :=
  let n := nat_of_ascii c in
  ((9 <=? n) && (n <=? 13) || (28 <=? n) && (n <=? 32))%nat.

Fixpoint lstrip (s : string) : string :=
  match s with
  | EmptyString => EmptyString
  | String c s' => if is_space c then lstrip s' else s
  end.

Fixpoint rstrip (s : string) : string :=
  match s with
  | EmptyString => EmptyString
  | String c s' =>
      match rstrip s' with
      | EmptyString => if is_space c then EmptyString else String c EmptyString
      | r => String c r
      end
  end.

(** [s.strip()] *)
Definition strip (s : string) : string := rstrip (lstrip s).

(** Every character of [s] is whitespace (so is the empty string). *)
Fixpoint blank (s : string) : bool :=
  match s with
  | EmptyString => true
  | String c s' => is_space c && blank s'
  end.

Definition is_digit (c : ascii) : bool :=
  let n := nat_of_ascii c in ((48 <=? n) && (n <=? 57))%nat.

Definition digit_value (c : ascii) : Z := Z.of_nat (nat_of_ascii c) - 48.

(** The digit part of an integer literal given to [int()]: decimal digits,
    with single underscores allowed between two digits. *)
Fixpoint int_digits (s : string) (acc : Z) (after_digit : bool) : option Z :=
  match s with
  | EmptyString => if after_digit then Some acc else None
  | String c s' =>
      if is_digit c then int_digits s' (10 * acc + digit_value c) true
      else if Ascii.eqb c "_"
           then (if after_digit then int_digits s' acc false else None)
           else None
  end.

Definition int_literal (s : string) : option Z :=
  match s with
  | String "+" s' => int_digits s' 0 false
  | String "-" s' => Z.opp <$> int_digits s' 0 false
  | _ => int_digits s 0 false
  end.

(** [int(s)] for a [str] in base 10: surrounding whitespace is ignored, one
    optional sign, then the digits; anything else is a [ValueError].  (Only
    ASCII digits are modelled, and no limit on the number of digits.) *)
Definition int (s : string) : exc + Z :=
  match int_literal (strip s) with
  | Some z => inr z
  | None => inl (ValueError ("invalid literal for int() with base 10: '" +:+ s +:+ "'"))
  end.

(** What a call leaves behind: the value it returns or the exception it
    raises. *)
Inductive outcome (A : Type) :=
| Return (a : A)
| Raise (e : exc).
Arguments Return {A} a.
Arguments Raise {A} e.

(** The line feed of the [\n] escapes. *)
Definition nl : string := String (ascii_of_nat 10) EmptyString.

(** [l.index(x)] on a list of strings: the first position, or [ValueError]. *)
Fixpoint index (l : list string) (x : string) : option nat :=
  match l with
  | [] => None
  | y :: l' => if String.eqb y x then Some 0%nat else S <$> index l' x
  end.

End Py.

(** ** [src/record.py] *)

Module record.
Import Py.

Definition APPROVAL_STATUS_REQUESTED_MEETING : string := "Requested Meeting".
Definition APPROVAL_STATUS_PENDING : string := "Pending".
Definition APPROVAL_STATUS_AUTO_APPROVED : string := "Auto Approved".
Definition APPROVAL_STATUS_MANUAL_APPROVED : string := "Manually Approved".

Definition EMAIL_STATUS_PENDING : string := "Pending Approval".
Definition EMAIL_STATUS_IN_QUEUE : string := "In Queue".
Definition EMAIL_STATUS_AUTO_SENT : string := "Auto Sent".
Definition EMAIL_STATUS_MANUAL_SENT : string := "Manually Sent".

(** Modelled from the spec: the class [Sheet] of [src/sheets.py], which is
    not among the sources.  It is the backing store adapter of the
    specification: [get_headers] answers [columnIndexOf], [update_cell] is
    [writeCell(rowPosition, colIndex, value)].  The store is the header row
    and the cell writes it received, oldest first; a write always succeeds
    and leaves the header row as it is. *)
Record Sheet := mkSheet {
  get_headers : list string;
  cell_writes : list (Z * nat * value)
}.

Definition update_cell (sheet : Sheet) (row_index : Z) (col_index : nat)
    (v : value) : Sheet :=
  mkSheet (get_headers sheet) (cell_writes sheet ++ [(row_index, col_index, v)]).

(** One row of the roster.  The [sheet] attribute is a reference to the
    store shared by all records; the methods that use it take the store as
    an argument and hand it back. *)
Record StudentRecord := mkStudentRecord {
  table_record : gmap string value;
  table_index : Z;
  write_queue : list (string * value)
}.

(** [__init__]: the queue starts empty. *)
Definition init (table_record : gmap string value) (table_index : Z) : StudentRecord :=
  mkStudentRecord table_record table_index [].

(** [self.table_record[key]] *)
Definition getitem (self : StudentRecord) (key : string) : outcome value :=
  match table_record self !! key with
  | Some v => Return v
  | None => Raise (KeyError key)
  end.

Definition is_dsp (self : StudentRecord) : outcome value := getitem self "is_dsp".

Definition approval_status (self : StudentRecord) : outcome value :=
  getitem self "approval_status".

Definition get_assignment (self : StudentRecord) (assignment_id : string)
    : outcome (option Z) :=
  let error err :=
    Raise (StudentRecordError assignment_id (table_record self) (table_index self) err) in
  match table_record self !! assignment_id with
  | None => error (KeyError assignment_id)
  | Some cell =>
      let result := str cell in
      let result := strip result in
      if (0 <? String.length result)%nat then
        match int result with
        | inr z => Return (Some z)
        | inl err => error err
        end
      else Return None
  end.

Definition has_existing_request (self : StudentRecord) (assignment_id : string)
    : outcome bool :=
  match get_assignment self assignment_id with
  | Return r => Return (truthy_opt_int r)
  | Raise e => Raise e
  end.

(** [assignment_manager.get_all_ids()] is passed as the list it returns. *)
Fixpoint existing_request_count_from (self : StudentRecord) (all_ids : list string)
    (count : Z) : outcome Z :=
  match all_ids with
  | [] => Return count
  | assignment_id :: ids =>
      match get_assignment self assignment_id with
      | Return r =>
          existing_request_count_from self ids
            (if truthy_opt_int r then count + 1 else count)
      | Raise e => Raise e
      end
  end.

Definition existing_request_count (self : StudentRecord) (all_ids : list string)
    : outcome Z :=
  existing_request_count_from self all_ids 0.

Definition queue_write_back (self : StudentRecord) (col_key : string) (col_value : value)
    : StudentRecord :=
  mkStudentRecord (table_record self) (table_index self)
    (write_queue self ++ [(col_key, col_value)]).

Definition queue_approval_status (self : StudentRecord) (status : string) : StudentRecord :=
  queue_write_back self "approval_status" (VStr status).

Definition queue_email_status (self : StudentRecord) (status : string) : StudentRecord :=
  queue_write_back self "email_status" (VStr status).

(** The loop of [dispatch_writes] over the pairs still to write.  [headers]
    was read once before the loop; [self.write_queue] itself is never
    assigned, only [table_record] and the store change. *)
Fixpoint dispatch_loop (headers : list string) (row_index : Z)
    (queue : list (string * value)) (cached : gmap string value) (sheet : Sheet)
    : outcome unit * gmap string value * Sheet :=
  match queue with
  | [] => (Return tt, cached, sheet)
  | (col_key, v) :: queue' =>
      match index headers col_key with
      | None => (Raise (ValueError ("'" +:+ col_key +:+ "' is not in list")), cached, sheet)
      | Some col_index =>
          dispatch_loop headers row_index queue'
            (<[col_key := v]> cached) (update_cell sheet row_index col_index v)
      end
  end.

Definition dispatch_writes (self : StudentRecord) (sheet : Sheet)
    : outcome unit * StudentRecord * Sheet :=
  let headers := get_headers sheet in
  let '(r, cached, sheet') :=
    dispatch_loop headers (table_index self) (write_queue self) (table_record self) sheet in
  (r, mkStudentRecord cached (table_index self) (write_queue self), sheet').

(** *** Vocabulary of the statements below *)

(** The cell writes a queue stands for: one per pair, at the record's row
    and the column of the pair's key. *)
Definition cell_write (headers : list string) (row_index : Z) (kv : string * value)
    : option (Z * nat * value) :=
  (fun col_index => (row_index, col_index, kv.2)) <$> index headers kv.1.

Definition commits (headers : list string) (row_index : Z)
    (queue : list (string * value)) : list (Z * nat * value) :=
  omap (cell_write headers row_index) queue.

(** The cache with every pair of a queue written into it, in queue order. *)
Definition written (cached : gmap string value) (queue : list (string * value))
    : gmap string value :=
  foldl (fun m kv => <[kv.1 := kv.2]> m) cached queue.

End record.

(** ** [src/policy.py] *)

Module policy.
Import Py record.

(** Modelled from the spec: the class [Assignment] of [src/assignments.py],
    which is not among the sources: identifier, human name and whether the
    assignment is shared between partners, as the accessors return them.
    ([is_past_due] is in [Externals] below.) *)
Record Assignment := mkAssignment {
  get_id : string;
  get_name : string;
  is_partner_assignment : bool
}.

(** Modelled from the spec: the class [FormSubmission] of
    [src/submission.py], which is not among the sources; each field is what
    the accessor of that name returns.  The submission is read-only. *)
Record FormSubmission := mkFormSubmission {
  get_email : string;
  has_partner : bool;
  knows_assignments : bool;
  claims_dsp : bool;
  dsp_status : string;
  get_timestamp : Z;
  get_num_requests : Z;
  get_requests : list (Assignment * Z)
}.

(** Modelled from the spec: the thresholds that [Environment] of
    [src/utils.py] (not among the sources) reads from the configuration:
    general days, accommodation days, requests per submission. *)
Record Environment := mkEnvironment {
  get_auto_approve_threshold : Z;
  get_auto_approve_threshold_dsp : Z;
  get_auto_approve_assignment_threshold : Z
}.

(** Modelled from the spec: the [SlackManager] of [src/slack.py], which is
    not among the sources, is the Notification Sink; it is represented by
    the calls it received, oldest first. *)
Inductive SlackCall :=
| suppress
| send_student_update (message : string) (autoapprove : bool)
| add_warning (message : string).

(** The state a [Policy] object reaches and mutates: its two records, the
    roster sheet both records point to, the Slack connection, and the
    records for which [Email.send] was called. *)
Record Policy := mkPolicy {
  submission : FormSubmission;
  student : StudentRecord;
  partner : option StudentRecord;
  sheet_records : Sheet;
  slack : list SlackCall;
  emails : list StudentRecord
}.

Definition set_student (p : Policy) (s : StudentRecord) : Policy :=
  mkPolicy (submission p) s (partner p) (sheet_records p) (slack p) (emails p).
Definition set_partner (p : Policy) (s : StudentRecord) : Policy :=
  mkPolicy (submission p) (student p) (Some s) (sheet_records p) (slack p) (emails p).
Definition set_sheet (p : Policy) (sh : Sheet) : Policy :=
  mkPolicy (submission p) (student p) (partner p) sh (slack p) (emails p).
Definition set_slack (p : Policy) (l : list SlackCall) : Policy :=
  mkPolicy (submission p) (student p) (partner p) (sheet_records p) l (emails p).
Definition set_emails (p : Policy) (l : list StudentRecord) : Policy :=
  mkPolicy (submission p) (student p) (partner p) (sheet_records p) (slack p) l.

(** A method of [Policy]: it runs on the object's state and leaves a state
    behind, also when it raises. *)
Definition M (A : Type) : Type := Policy -> outcome A * Policy.

Definition ret {A} (a : A) : M A := fun p => (Return a, p).

Definition bind {A B} (m : M A) (k : A -> M B) : M B :=
  fun p =>
    match m p with
    | (Return a, p') => k a p'
    | (Raise e, p') => (Raise e, p')
    end.

Notation "x <- c1 ;; c2" := (bind c1 (fun x => c2))
  (at level 100, c1 at next level, right associativity).
Notation "c1 ;; c2" := (bind c1 (fun _ => c2))
  (at level 100, right associativity).

(** A method of a record that may write to the sheet. *)
Definition method (A : Type) : Type :=
  StudentRecord -> Sheet -> outcome A * StudentRecord * Sheet.

(** [self.student.m()] *)
Definition on_student {A} (m : method A) : M A :=
  fun p =>
    let '(r, s, sh) := m (student p) (sheet_records p) in
    (r, set_sheet (set_student p s) sh).

(** [self.partner.m()]; on [None] the attribute lookup fails. *)
Definition on_partner {A} (name : string) (m : method A) : M A :=
  fun p =>
    match partner p with
    | None =>
        (Raise (AttributeError ("'NoneType' object has no attribute '" +:+ name +:+ "'")), p)
    | Some q =>
        let '(r, q', sh) := m q (sheet_records p) in
        (r, set_sheet (set_partner p q') sh)
    end.

Definition slack_call (c : SlackCall) : M unit :=
  fun p => (Return tt, set_slack p (slack p ++ [c])).

(** Modelled from the spec: [get_request] is the name under which
    [policy.py] reads the granted length of an assignment (the
    specification's [getExisting]); [record.py] defines that read as
    [get_assignment]. *)
Definition get_request (self : StudentRecord) (assignment_id : string)
    : outcome (option Z) :=
  get_assignment self assignment_id.

(** What [policy.py] calls and the sources do not define: the status
    setters, [flush] and [has_wip_status] of [StudentRecord],
    [Assignment.is_past_due] and the sending of an [Email] (the exception
    text, if it raises).  The policy is modelled for any implementation of
    them. *)
Class Externals := {
  set_status_requested_meeting : method unit;
  set_status_pending : method unit;
  set_status_approved : method unit;
  flush : method unit;
  has_wip_status : StudentRecord -> bool;
  is_past_due : Assignment -> Z -> bool;
  email_send : StudentRecord -> option string
}.

(** Modelled from the spec: the missing methods as the specification words
    them: a status is set by queueing the write of the [approval_status]
    column, [flush] is the dispatch of the queue, a record is work in
    progress when its status is [Pending] or [Requested Meeting], an
    assignment is past due when its due date precedes the request, and the
    email goes out. *)
Definition spec_externals (due_date : string -> Z) : Externals := {|
  set_status_requested_meeting := fun self sh =>
    (Return tt, queue_approval_status self APPROVAL_STATUS_REQUESTED_MEETING, sh);
  set_status_pending := fun self sh =>
    (Return tt, queue_approval_status self APPROVAL_STATUS_PENDING, sh);
  set_status_approved := fun self sh =>
    (Return tt, queue_approval_status self APPROVAL_STATUS_AUTO_APPROVED, sh);
  flush := dispatch_writes;
  has_wip_status := fun self =>
    match table_record self !! "approval_status" with
    | Some (VStr s) =>
        String.eqb s APPROVAL_STATUS_PENDING
        || String.eqb s APPROVAL_STATUS_REQUESTED_MEETING
    | _ => false
    end;
  is_past_due := fun a request_time => due_date (get_id a) <? request_time;
  email_send := fun _ => None
|}.

Section Policy.
Context {externals : Externals}.
Variable env : Environment.

(** The reasons [process_submission] gives for a manual review. *)
Definition reason_too_many_requests (num_requests : Z) : string :=
  "this student has requested more assignment extensions (" +:+ pretty num_requests
  +:+ ") than the "
  +:+ "auto-approve threshold ({Environment.get_auto_approve_assignment_threshold()})".

Definition reason_disabled : string := "auto-approve is disabled".

Definition reason_threshold (num_days : Z) : string :=
  "a request of " +:+ pretty num_days
  +:+ " days is greater than auto-approve threshold of "
  +:+ pretty (get_auto_approve_threshold env) +:+ " days".

Definition reason_threshold_dsp (num_days : Z) : string :=
  "a DSP request of " +:+ pretty num_days
  +:+ " days is greater than DSP auto-approve threshold".

Definition reason_retroactive : string :=
  "student requested a retroactive extension on an assignment".

Definition warning_kept_existing (assignment : Assignment) (num_days existing_request : Z)
    : string :=
  "[" +:+ get_name assignment +:+ "] student requested an extension for "
  +:+ pretty num_days +:+ " days, which was <= an existing request of "
  +:+ pretty existing_request
  +:+ " days, so we kept the existing request in-place.".

Definition warning_dsp (sub : FormSubmission) : string :=
  "Student " +:+ get_email sub +:+ " responded '" +:+ dsp_status sub +:+ "' to "
  +:+ "DSP question in extension request, but is not marked for DSP approval on the roster. "
  +:+ "Please investigate!".

(** [existing_request and num_days <= existing_request] *)
Definition keeps_existing (existing_request : option Z) (num_days : Z) : bool :=
  match existing_request with
  | Some existing => truthy_opt_int existing_request && (num_days <=? existing)
  | None => false
  end.

(** The [if]/[elif] chain of flag cases 1 to 3, on the day count of the pair
    after a shorter request was replaced by the existing one; the result is
    the new value of [needs_human]. *)
Definition flag_cases (sub : FormSubmission) (assignment : Assignment) (num_days : Z)
    (needs_human : option string) : option string :=
  if negb (claims_dsp sub) && (num_days >? get_auto_approve_threshold env) then
    if get_auto_approve_threshold env <=? 0
    then Some reason_disabled
    else Some (reason_threshold num_days)
  else if claims_dsp sub && (num_days >? get_auto_approve_threshold_dsp env) then
    Some (reason_threshold_dsp num_days)
  else if is_past_due assignment (get_timestamp sub) then
    Some reason_retroactive
  else needs_human.

(** The body of the loop over [get_requests()], for one pair. *)
Definition process_request (assignment : Assignment) (num_days : Z)
    (needs_human : option string) : M (option string) :=
  existing_request <-
    (fun p => (get_request (student p) (get_id assignment), p)) ;;
  num_days <-
    (if keeps_existing existing_request num_days then
       slack_call (add_warning
         (warning_kept_existing assignment num_days (default 0 existing_request))) ;;
       ret (default 0 existing_request)
     else ret num_days) ;;
  needs_human <-
    (fun p => (Return (flag_cases (submission p) assignment num_days needs_human), p)) ;;
  on_student (fun self sh =>
    (Return tt, queue_write_back self (get_id assignment) (VInt num_days), sh)) ;;
  (fun p =>
     if is_partner_assignment assignment && bool_decide (is_Some (partner p)) then
       on_partner "queue_write_back" (fun self sh =>
         (Return tt, queue_write_back self (get_id assignment) (VInt num_days), sh)) p
     else ret tt p) ;;
  ret needs_human.

Fixpoint process_requests (requests : list (Assignment * Z))
    (needs_human : option string) : M (option string) :=
  match requests with
  | [] => ret needs_human
  | (assignment, num_days) :: requests' =>
      needs_human <- process_request assignment num_days needs_human ;;
      process_requests requests' needs_human
  end.

(** The check made once before the loop: the value [needs_human] has when
    the loop starts. *)
Definition too_many_requests (sub : FormSubmission) : option string :=
  let needs_human := None in
  let num_requests := get_num_requests sub in
  if negb (claims_dsp sub)
     && (num_requests >? get_auto_approve_assignment_threshold env)
  then Some (reason_too_many_requests num_requests)
  else needs_human.

(** The block under [if needs_human:] after the loop. *)
Definition mark_pending : M unit :=
  on_student set_status_pending ;;
  on_student flush ;;
  fun p =>
    if bool_decide (is_Some (partner p)) then
      (on_partner "set_status_pending" set_status_pending ;;
       on_partner "flush" flush) p
    else ret tt p.

Definition process_submission : M (option string) :=
  fun p =>
    (needs_human <-
       process_requests (get_requests (submission p)) (too_many_requests (submission p)) ;;
     (if truthy_opt_str needs_human then mark_pending else ret tt) ;;
     ret needs_human) p.

Definition wip_student : string :=
  "An extension request needs review (there is work-in-progress for this student's record).".
Definition wip_partner : string :=
  "An extension request needs review (there is work-in-progress for this student's partner).".
Definition wip_alone : string :=
  "An extension request needs review (there is work in progress for this student's record).".

(** [self.partner.has_wip_status()] *)
Definition partner_has_wip_status : M bool :=
  fun p =>
    match partner p with
    | Some q => (Return (has_wip_status q), p)
    | None =>
        (Raise (AttributeError "'NoneType' object has no attribute 'has_wip_status'"), p)
    end.

Definition check_work_in_progress : M (option string) :=
  fun p =>
    let work_in_progress := None in
    (* Case (1) *)
    if has_partner (submission p) && has_wip_status (student p) then
      (on_student flush ;;
       on_partner "set_status_pending" set_status_pending ;;
       on_partner "flush" flush ;;
       ret (Some wip_student)) p
    else
      (* Case (2): the partner is asked only when the submission has one *)
      (partner_wip <-
         (if has_partner (submission p) then partner_has_wip_status else ret false) ;;
       if partner_wip then
         on_partner "flush" flush ;;
         on_student set_status_pending ;;
         on_student flush ;;
         ret (Some wip_partner)
       (* Case (3) *)
       else if has_wip_status (student p) then
         on_student flush ;;
         ret (Some wip_alone)
       else ret work_in_progress) p.

Definition check_for_warnings : M unit :=
  fun p =>
    (student_is_dsp <-
       (if claims_dsp (submission p)
        then (fun p => match is_dsp (student p) with
                       | Return v => (Return (truthy v), p)
                       | Raise e => (Raise e, p)
                       end)
        else ret true) ;;
     if claims_dsp (submission p) && negb student_is_dsp
     then slack_call (add_warning (warning_dsp (submission p)))
     else ret tt) p.

Definition approved_alone : string :=
  "An extension request was automatically approved!".
Definition approved_with_partner : string :=
  "An extension request was automatically approved (for a partner, too!)".

Definition approve : M unit :=
  on_student set_status_approved ;;
  on_student flush ;;
  message <-
    (fun p =>
       if negb (bool_decide (is_Some (partner p))) then ret approved_alone p
       else
         (on_partner "set_status_approved" set_status_approved ;;
          on_partner "flush" flush ;;
          ret approved_with_partner) p) ;;
  slack_call (send_student_update message true).

(** [send_email]: the email is built from the record and sent; whatever it
    raises comes out as a [KnownError]. *)
Definition send_email (target : StudentRecord) : M unit :=
  fun p =>
    let p' := set_emails p (emails p ++ [target]) in
    match email_send target with
    | None => (Return tt, p')
    | Some err =>
        (Raise (KnownError
           ("Writes to spreadsheet succeed, but email to student failed." +:+ nl
            +:+ "Please follow up with this student manually and/or check email logs."
            +:+ nl +:+ "Error: " +:+ err)), p')
    end.

(** Step 6 of [apply]. *)
Definition send_emails (silent : bool) : M unit :=
  if negb silent then
    (fun p => send_email (student p) p) ;;
    (fun p =>
       match partner p with
       | Some q => send_email q p
       | None => ret tt p
       end)
  else ret tt.

(** Steps 4 to 6 of [apply], reached when no check asked for a human. *)
Definition approve_and_email (silent : bool) : M unit :=
  check_for_warnings ;;
  approve ;;
  send_emails silent.

Definition apply (silent : bool) : M unit :=
  (if silent then slack_call suppress else ret tt) ;;
  fun p =>
    (* Step 1 *)
    if negb (knows_assignments (submission p)) then
      (on_student set_status_requested_meeting ;;
       slack_call
         (send_student_update "A student requested a student support meeting." false)) p
    else
      (* Step 2 *)
      (needs_human <- process_submission ;;
       if truthy_opt_str needs_human then
         slack_call (send_student_update
           ("An extension request needs review (" +:+ default "" needs_human +:+ ").") false)
       else
         (* Step 3 *)
         work_in_progress <- check_work_in_progress ;;
         if truthy_opt_str work_in_progress then
           slack_call (send_student_update (default "" work_in_progress) false)
         else
           (* Steps 4 to 6 *)
           approve_and_email silent) p.

(** *** Vocabulary of the statements below *)

(** The granted length on file for an assignment, [None] also when the cell
    cannot be read. *)
Definition granted (self : StudentRecord) (assignment_id : string) : option Z :=
  match get_request self assignment_id with
  | Return r => r
  | Raise _ => None
  end.

(** The day count a pair is judged and written with. *)
Definition effective_days (existing_request : option Z) (num_days : Z) : Z :=
  if keeps_existing existing_request num_days
  then default 0 existing_request
  else num_days.

(** The write a pair queues on a record, given the record it is read from. *)
Definition queued_write (self : StudentRecord) (request : Assignment * Z)
    : string * value :=
  (get_id request.1,
   VInt (effective_days (granted self (get_id request.1)) request.2)).

(** The granted length of every requested assignment can be read. *)
Definition readable (self : StudentRecord) (requests : list (Assignment * Z)) : Prop :=
  Forall (fun request =>
            get_request self (get_id request.1)
            = Return (granted self (get_id request.1))) requests.

(** The state one pair leaves when its read succeeds. *)
Definition after_request (assignment : Assignment) (num_days : Z) (p : Policy) : Policy :=
  let existing_request := granted (student p) (get_id assignment) in
  let days := effective_days existing_request num_days in
  mkPolicy (submission p)
    (queue_write_back (student p) (get_id assignment) (VInt days))
    (if is_partner_assignment assignment
     then (fun q => queue_write_back q (get_id assignment) (VInt days)) <$> partner p
     else partner p)
    (sheet_records p)
    (slack p ++
       if keeps_existing existing_request num_days
       then [add_warning
               (warning_kept_existing assignment num_days (default 0 existing_request))]
       else [])
    (emails p).

(** The accommodation flag on file, as [not self.student.is_dsp()] takes it. *)
Definition on_file_dsp (self : StudentRecord) : bool :=
  match table_record self !! "is_dsp" with
  | Some v => truthy v
  | None => false
  end.

Definition after_requests (requests : list (Assignment * Z)) (p : Policy) : Policy :=
  foldl (fun p request => after_request request.1 request.2 p) p requests.

(** The day count of a pair of the submission held by [p]. *)
Definition days_of (p : Policy) (request : Assignment * Z) : Z :=
  effective_days (granted (student p) (get_id request.1)) request.2.

(** The pair asks for a human, whatever was decided before it. *)
Definition escalates (p : Policy) (request : Assignment * Z) : bool :=
  bool_decide (is_Some (flag_cases (submission p) request.1 (days_of p request) None)).

(** [needs_human] after the pairs of a list, from its value before them. *)
Definition reason_after (p : Policy) (requests : list (Assignment * Z))
    (needs_human : option string) : option string :=
  foldl (fun needs_human request =>
           flag_cases (submission p) request.1 (days_of p request) needs_human)
        needs_human requests.

End Policy.

End policy.

(** ** A small roster to run the code on *)

Module scenario.
Import Py record policy.

Definition hw1 : Assignment := mkAssignment "hw1" "Homework 1" false.
Definition hw2 : Assignment := mkAssignment "hw2" "Homework 2" false.
Definition project : Assignment := mkAssignment "proj1" "Project 1" true.

Definition headers : list string :=
  ["email"; "is_dsp"; "approval_status"; "email_status"; "hw1"; "hw2"; "proj1"].

Definition roster_sheet : Sheet := mkSheet headers [].

(** The row of a student, from the flag on file and the cell of [hw1]. *)
Definition row (on_file : bool) (hw1_cell : value) : StudentRecord :=
  init (list_to_map
          [("email", VStr "oski@berkeley.edu"); ("is_dsp", VBool on_file);
           ("approval_status", VStr ""); ("email_status", VStr "");
           ("hw1", hw1_cell); ("hw2", VStr ""); ("proj1", VStr "")]) 3.

Definition partner_row : StudentRecord :=
  init (list_to_map
          [("email", VStr "carol@berkeley.edu"); ("is_dsp", VBool false);
           ("approval_status", VStr ""); ("email_status", VStr "");
           ("hw1", VStr ""); ("hw2", VStr ""); ("proj1", VStr "")]) 4.

(** A submission sent at time 50, from the DSP claim and the requests. *)
Definition form (dsp : bool) (requests : list (Assignment * Z)) : FormSubmission :=
  mkFormSubmission "oski@berkeley.edu" false true dsp (if dsp then "Yes" else "No")
    50 (Z.of_nat (length requests)) requests.


Definition evaluation (sub : FormSubmission) (st : StudentRecord) : Policy :=
  mkPolicy sub st None roster_sheet [] [].

Definition evaluation_with_partner (sub : FormSubmission) (st : StudentRecord) : Policy :=
  mkPolicy sub st (Some partner_row) roster_sheet [] [].

(** Every assignment is due at time 100. *)
Definition due_100 : Externals := spec_externals (fun _ => 100).

(** Up to 7 days are approved, 14 with DSP, for at most 2 assignments. *)
Definition env_7 : Environment := mkEnvironment 7 14 2.

(** Auto-approve switched off. *)
Definition env_0 : Environment := mkEnvironment 0 14 2.

(** A row with three writes pending, two of them to the same column. *)
Definition queued_row : StudentRecord :=
  queue_write_back
    (queue_write_back
       (queue_write_back (row false (VStr "")) "hw1" (VInt 3))
       "approval_status" (VStr APPROVAL_STATUS_PENDING))
    "hw1" (VInt 5).

End scenario.

(** ** [src/gradescope.py] *)

Module gradescope.
Import Py.

(** The client of the [gradescope_api] package, which the repository uses
    and does not contain, taken as given: whether the course of an
    assignment URL has a student with an email (and the student's user id),
    and whether creating an extension there goes through ([None]) or raises
    [GradescopeAPIError] (its text).  Instants are numbers, so
    [astimezone(pytz.utc)] leaves them as they are.  The lines [print]ed on
    the way are not modelled. *)
Class GradescopeClient := {
  get_student : string -> string -> option Z;
  create_extension : string -> Z -> Z -> option string
}.

Section Gradescope.
Context {client : GradescopeClient}.

(** [str(assignment_urls)] inside the warning, taken as given. *)
Variable repr_urls : list string -> string.

Definition warning_not_found (email : string) : string :=
  "Student " +:+ email +:+ " not found on Gradescope course roster; check email!".

Definition warning_not_extended (email : string) (assignment_urls : list string)
    (err : string) : string :=
  "Could not extend assignment deadline for " +:+ email +:+ " for "
  +:+ repr_urls assignment_urls +:+ " (internal Gradescope error: " +:+ err +:+ ")".

(** The loop of [apply_extension] over the URLs still to visit; [created]
    is what Gradescope was made to record, oldest first. *)
Fixpoint apply_extension_loop (assignment_urls : list string) (email : string)
    (new_due_date : Z) (urls : list string)
    (warnings : list string) (created : list (string * Z * Z))
    : list string * list (string * Z * Z) :=
  match urls with
  | [] => (warnings, created)
  | assignment_url :: urls' =>
      match get_student assignment_url email with
      | None => ((warnings ++ [warning_not_found email])%list, created)
      | Some user_id =>
          match create_extension assignment_url user_id new_due_date with
          | None =>
              apply_extension_loop assignment_urls email new_due_date urls'
                warnings (created ++ [(assignment_url, user_id, new_due_date)])%list
          | Some err =>
              apply_extension_loop assignment_urls email new_due_date urls'
                (warnings ++ [warning_not_extended email assignment_urls err])%list created
          end
      end
  end.

Definition apply_extension (assignment_urls : list string) (email : string)
    (new_due_date : Z) : list string * list (string * Z * Z) :=
  apply_extension_loop assignment_urls email new_due_date assignment_urls [] [].

(** The URL is handled without a warning: the student is found and the
    extension goes through. *)
Definition extended (email : string) (new_due_date : Z) (assignment_url : string) : Prop :=
  exists user_id,
    get_student assignment_url email = Some user_id
    /\ create_extension assignment_url user_id new_due_date = None.

End Gradescope.

End gradescope.

(** ** More vocabulary for the statements *)

Module vocabulary.
Import Py record policy.

(** The value a queue writes last into a column, if it writes there. *)
Fixpoint last_write (queue : list (string * value)) (col_key : string) : option value :=
  match queue with
  | [] => None
  | (k, v) :: queue' =>
      match last_write queue' col_key with
      | Some w => Some w
      | None => if String.eqb k col_key then Some v else None
      end
  end.

(** The assignment counts as an existing request. *)
Definition counted (self : StudentRecord) (assignment_id : string) : bool :=
  match get_assignment self assignment_id with
  | Return r => truthy_opt_int r
  | Raise _ => false
  end.

(** The cell of the assignment can be read. *)
Definition legible (self : StudentRecord) (assignment_id : string) : Prop :=
  exists r, get_assignment self assignment_id = Return r.

(** The state [apply] works on after its first statement. *)
Definition started (silent : bool) (p : Policy) : Policy :=
  if silent then set_slack p (slack p ++ [suppress]) else p.

(** Slack was told of an automatic approval. *)
Definition approval_announced (p : Policy) : Prop :=
  exists message, send_student_update message true ∈ slack p.

(** A method that sends no email, however it ends. *)
Definition quiet {A} (m : M A) : Prop :=
  forall p, emails (m p).2 = emails p.

End vocabulary.

(** ** The status setter of the meeting path *)

Module spec_model.
Import Py record policy.

(** Modelled from the spec: [StudentRecord.set_status_requested_meeting],
    which [policy.py] calls and [record.py] does not define.  The
    specification has the status as a column of the Record, has a Record
    "mutated only via queueWrite", and has queued writes persist only at a
    flush; [record.py] has [queue_approval_status] and the constant
    [APPROVAL_STATUS_REQUESTED_MEETING] for it.  So the setter queues the
    write of that status, touches nothing else and does not dispatch. *)
Definition set_status_requested_meeting : method unit :=
  fun self sheet =>
    (Return tt, queue_approval_status self APPROVAL_STATUS_REQUESTED_MEETING, sheet).

End spec_model.

(** ** More rows, methods and a Gradescope to run the code on *)

Module cases.
Import Py record policy gradescope scenario.

(** Three writes pending, the second to a column the sheet does not have. *)
Definition stray_row : StudentRecord :=
  queue_write_back
    (queue_write_back (queue_write_back (row false (VStr "")) "hw1" (VInt 3))
       "hw9" (VInt 2))
    "hw2" (VInt 1).

(** A row whose [hw1] cell is no number. *)
Definition garbled_row : StudentRecord := row false (VStr "next week").

(** Every assignment was due at time 10, before the submissions. *)
Definition due_10 : Externals := spec_externals (fun _ => 10).

(** As [due_100], with a mail server that refuses every email. *)
Definition bounced : Externals := {|
  set_status_requested_meeting := @set_status_requested_meeting due_100;
  set_status_pending := @set_status_pending due_100;
  set_status_approved := @set_status_approved due_100;
  flush := @flush due_100;
  has_wip_status := @has_wip_status due_100;
  is_past_due := @is_past_due due_100;
  email_send := fun _ => Some "connection refused"
|}.

(** A Gradescope where the student is enrolled in the course [cs161] only
    and where the second homework cannot be extended. *)
Definition campus : GradescopeClient := {|
  get_student := fun url email =>
    if String.prefix "cs161/" url && String.eqb email "oski@berkeley.edu"
    then Some 42 else None;
  create_extension := fun url user_id due =>
    if String.eqb url "cs161/hw2" then Some "locked" else None
|}.

(** A stand-in for the text of a list of URLs. *)
Definition listing (urls : list string) : string :=
  "[" +:+ String.concat ", " urls +:+ "]".

End cases.

(** * Properties *)

Import Py record policy.

(** ** The roster record *)

Section foldl_insert.
Context {V : Type}.
Implicit Types (m : gmap string V) (q : list (string * V)).

(** The cache after a dispatch: every queued pair inserted, in order. *)
Lemma foldl_insert_union q m :
  foldl (fun m kv => <[kv.1 := kv.2]> m) m q = list_to_map (reverse q) ∪ m.
Proof.
  revert m. induction q as [|[k v] q IH]; intros m; simpl.
  - change (reverse []) with (@nil (string * V)). simpl.
    by rewrite (left_id_L ∅ (∪)).
  - rewrite IH, reverse_cons, list_to_map_app. simpl.
    rewrite <- (assoc_L (∪)). f_equal.
    by rewrite <- insert_union_l, (left_id_L ∅ (∪)).
Qed.

Lemma foldl_insert_twice q m :
  foldl (fun m kv => <[kv.1 := kv.2]> m)
        (foldl (fun m kv => <[kv.1 := kv.2]> m) m q) q
  = foldl (fun m kv => <[kv.1 := kv.2]> m) m q.
Proof.
  rewrite !foldl_insert_union, (assoc_L (∪)). f_equal. apply (idemp_L (∪)).
Qed.

End foldl_insert.

Lemma dispatch_loop_commits headers row_index queue cached sheet :
  Forall (fun kv : string * value => is_Some (index headers kv.1)) queue ->
  dispatch_loop headers row_index queue cached sheet
  = (Return tt, written cached queue,
     mkSheet (get_headers sheet) (cell_writes sheet ++ commits headers row_index queue)).
Proof.
  intros Hq. revert cached sheet.
  induction Hq as [|[k v] queue [c Hc] _ IH]; intros cached sheet; simpl.
  - rewrite app_nil_r. by destruct sheet.
  - simpl in Hc. rewrite Hc, IH. unfold commits, cell_write; simpl.
    rewrite Hc; simpl. by rewrite <- app_assoc.
Qed.

Lemma dispatch_loop_returned headers row_index queue cached sheet cached' sheet' :
  dispatch_loop headers row_index queue cached sheet = (Return tt, cached', sheet') ->
  Forall (fun kv : string * value => is_Some (index headers kv.1)) queue.
Proof.
  revert cached sheet. induction queue as [|[k v] queue IH]; intros cached sheet; simpl.
  - constructor.
  - destruct (index headers k) as [c|] eqn:Hc; [|discriminate].
    intros H. constructor; [simpl; by rewrite Hc | by eapply IH].
Qed.

Lemma commits_length headers row_index queue :
  Forall (fun kv : string * value => is_Some (index headers kv.1)) queue ->
  length (commits headers row_index queue) = length queue.
Proof.
  induction 1 as [|[k v] queue [c Hc] _ IH]; simpl; [done|].
  unfold commits, cell_write in *; simpl in *. rewrite Hc; simpl. by rewrite IH.
Qed.

(** C8. Flushing a record whose pending queue is empty does nothing: the
    store receives no cell write and the record, its cached [table_record]
    included, is as before. *)
Theorem dispatch_writes_empty_queue (self : StudentRecord) (sheet : Sheet) :
  write_queue self = [] ->
  dispatch_writes self sheet = (Return tt, self, sheet).
Proof.
  intros Hq. unfold dispatch_writes. rewrite Hq. simpl. by destruct self; simpl in *; subst.
Qed.

(** C10. A dispatch that succeeds leaves the queue as it was, with every
    pair in it; the store received one cell write per queued pair; a second
    dispatch right after succeeds too, sends the store the same cell writes
    again, and leaves the record, cache included, as the first left it. *)
Theorem dispatch_writes_keeps_queue (self self1 : StudentRecord) (sheet sheet1 : Sheet) :
  dispatch_writes self sheet = (Return tt, self1, sheet1) ->
  let again := commits (get_headers sheet) (table_index self) (write_queue self) in
  write_queue self1 = write_queue self
  /\ length again = length (write_queue self)
  /\ cell_writes sheet1 = (cell_writes sheet ++ again)%list
  /\ dispatch_writes self1 sheet1
     = (Return tt, self1, mkSheet (get_headers sheet1) (cell_writes sheet1 ++ again)).
Proof.
  unfold dispatch_writes. intros H.
  destruct (dispatch_loop _ _ _ _ _) as [[r cached] sh] eqn:Hloop.
  injection H as -> <- <-.
  apply dispatch_loop_returned in Hloop as Hq.
  rewrite (dispatch_loop_commits _ _ _ _ _ Hq) in Hloop.
  injection Hloop as <- <-. simpl.
  split; [done|]. split; [by apply commits_length|]. split; [done|].
  rewrite (dispatch_loop_commits _ _ _ _ _ Hq). simpl.
  unfold written. by rewrite foldl_insert_twice.
Qed.

(** ** Reading the granted length of an assignment *)

Lemma blank_lstrip s : blank (lstrip s) = blank s.
Proof.
  induction s as [|c s IH]; simpl; [done|].
  destruct (is_space c) eqn:Hc; simpl; [done | by rewrite Hc].
Qed.

Lemma lstrip_empty s : lstrip s = EmptyString <-> blank s = true.
Proof.
  induction s as [|c s IH]; simpl; [done|].
  destruct (is_space c); simpl; [done | split; discriminate].
Qed.

Lemma rstrip_empty s : rstrip s = EmptyString <-> blank s = true.
Proof.
  induction s as [|c s IH]; simpl; [done|].
  destruct (rstrip s) eqn:Hr.
  - destruct (is_space c); simpl; [tauto | split; discriminate].
  - split; [discriminate|]. intros [_ H]%andb_true_iff. apply IH in H. discriminate.
Qed.

Lemma strip_empty s : strip s = EmptyString <-> blank s = true.
Proof. unfold strip. by rewrite rstrip_empty, blank_lstrip. Qed.

Lemma rstrip_rstrip s : rstrip (rstrip s) = rstrip s.
Proof.
  induction s as [|c s IH]; simpl; [done|].
  destruct (rstrip s) eqn:Hr.
  - destruct (is_space c) eqn:Hc; simpl; [done | by rewrite Hc].
  - change (rstrip (String c (String a s0))) with
      (match rstrip (String a s0) with
       | EmptyString => if is_space c then EmptyString else String c EmptyString
       | r => String c r
       end).
    by rewrite IH.
Qed.

(** Stripping the right end keeps a first character that is not a space. *)
Lemma lstrip_rstrip s : lstrip (rstrip (lstrip s)) = rstrip (lstrip s).
Proof.
  induction s as [|c s IH]; simpl; [done|].
  destruct (is_space c) eqn:Hc; [done|]. simpl. rewrite Hc.
  destruct (rstrip s); simpl; by rewrite Hc.
Qed.

Lemma strip_strip s : strip (strip s) = strip s.
Proof. unfold strip. by rewrite lstrip_rstrip, rstrip_rstrip. Qed.

Lemma int_strip s z : int s = inr z -> int (strip s) = inr z.
Proof.
  unfold int. rewrite strip_strip. by destruct (int_literal (strip s)).
Qed.

Lemma int_strip_error s e : int s = inl e -> exists e', int (strip s) = inl e'.
Proof.
  unfold int. rewrite strip_strip. destruct (int_literal (strip s)); [done | eauto].
Qed.

Lemma int_blank s : blank s = true -> exists e, int s = inl e.
Proof.
  intros H%strip_empty. unfold int. rewrite H. simpl. eauto.
Qed.

Lemma strip_length s : (0 <? String.length (strip s))%nat = negb (blank s).
Proof.
  destruct (blank s) eqn:Hb.
  - apply strip_empty in Hb. by rewrite Hb.
  - destruct (strip s) eqn:Hs; [|done].
    apply strip_empty in Hs. congruence.
Qed.

(** *** [int(str(z))] is [z] *)

Lemma pretty_N_char_digit r :
  (r < 10)%N ->
  is_digit (pretty_N_char r) = true
  /\ digit_value (pretty_N_char r) = Z.of_N r
  /\ is_space (pretty_N_char r) = false
  /\ forall s, int_literal (String (pretty_N_char r) s)
               = int_digits (String (pretty_N_char r) s) 0 false.
Proof.
  intros Hr.
  assert (r = 0 \/ r = 1 \/ r = 2 \/ r = 3 \/ r = 4 \/ r = 5 \/ r = 6 \/ r = 7
          \/ r = 8 \/ r = 9)%N as H by lia.
  repeat destruct H as [->|H]; try subst r; repeat split; reflexivity.
Qed.

(** The digits of [x], printed in front of [s], read back as [x] appended
    to what was read before them. *)
Lemma int_digits_pretty_N_go x :
  (0 < x)%N ->
  exists m, forall s acc b,
    int_digits (pretty_N_go x s) acc b = int_digits s (acc * m + Z.of_N x) true.
Proof.
  induction (N.lt_wf_0 x) as [x _ IH]. intros Hx.
  pose proof (N.div_mod x 10 ltac:(lia)) as Hdm.
  pose proof (N.mod_lt x 10 ltac:(lia)) as Hmod.
  destruct (pretty_N_char_digit _ Hmod) as (Hdig & Hval & _).
  destruct (decide (x `div` 10 = 0)%N) as [Hq|Hq].
  - exists 10. intros s acc b.
    rewrite pretty_N_go_step, Hq, pretty_N_go_0 by done. simpl.
    rewrite Hdig, Hval. f_equal. lia.
  - destruct (IH (x `div` 10)%N) as [m Hm]; [apply N.div_lt; lia | lia |].
    exists (10 * m). intros s acc b.
    rewrite pretty_N_go_step, Hm by done. simpl.
    rewrite Hdig, Hval. f_equal. lia.
Qed.

Lemma pretty_N_go_head x s :
  (0 < x)%N ->
  exists r s', (r < 10)%N /\ pretty_N_go x s = String (pretty_N_char r) s'.
Proof.
  revert s. induction (N.lt_wf_0 x) as [x _ IH]. intros s Hx.
  rewrite pretty_N_go_step by done.
  destruct (decide (x `div` 10 = 0)%N) as [Hq|Hq].
  - rewrite Hq, pretty_N_go_0. eexists _, _. split; [|done]. apply N.mod_lt. lia.
  - apply IH; [apply N.div_lt; lia | by apply N.neq_0_lt_0].
Qed.

Lemma rstrip_cons c s :
  is_space c = false -> rstrip s = s -> rstrip (String c s) = String c s.
Proof. intros Hc Hs. simpl. rewrite Hs, Hc. by destruct s. Qed.

Lemma rstrip_pretty_N_go x s : rstrip s = s -> rstrip (pretty_N_go x s) = pretty_N_go x s.
Proof.
  revert s. induction (N.lt_wf_0 x) as [x _ IH]. intros s Hs.
  destruct (decide (x = 0)%N) as [->|Hx]; [done|].
  rewrite pretty_N_go_step by lia. apply IH; [apply N.div_lt; lia|].
  apply rstrip_cons; [|done].
  by destruct (pretty_N_char_digit (x `mod` 10)%N) as (_ & _ & ? & _);
    [apply N.mod_lt; lia|].
Qed.

Lemma int_literal_pretty_positive x :
  strip (pretty_N_go (N.pos x) EmptyString) = pretty_N_go (N.pos x) EmptyString
  /\ int_digits (pretty_N_go (N.pos x) EmptyString) 0 false = Some (Z.pos x)
  /\ int_literal (pretty_N_go (N.pos x) EmptyString) = Some (Z.pos x).
Proof.
  destruct (int_digits_pretty_N_go (N.pos x)) as [m Hm]; [lia|].
  destruct (pretty_N_go_head (N.pos x) EmptyString) as (r & s' & Hr & Hs); [lia|].
  destruct (pretty_N_char_digit _ Hr) as (_ & _ & Hsp & Hlit).
  assert (int_digits (pretty_N_go (N.pos x) EmptyString) 0 false = Some (Z.pos x)) as Hd.
  { rewrite Hm. simpl. f_equal. }
  split; [|split; [exact Hd|]].
  - unfold strip. rewrite Hs at 1. simpl. rewrite Hsp, <- Hs.
    by apply rstrip_pretty_N_go.
  - rewrite Hs, Hlit, <- Hs. exact Hd.
Qed.

Lemma int_str_int z : int (str (VInt z)) = inr z.
Proof.
  destruct z as [|x|x]; [done|..].
  - destruct (int_literal_pretty_positive x) as (Hs & _ & Hl).
    unfold int. simpl. unfold pretty, pretty_Z, pretty, pretty_positive, pretty, pretty_N.
    rewrite decide_False by done. by rewrite Hs, Hl.
  - destruct (int_literal_pretty_positive x) as (Hs & Hd & _).
    unfold int. simpl. unfold pretty, pretty_Z, pretty, pretty_positive, pretty, pretty_N.
    rewrite decide_False by done.
    change ("-" +:+ pretty_N_go (N.pos x) EmptyString)
      with (String "-" (pretty_N_go (N.pos x) EmptyString)).
    assert (strip (String "-" (pretty_N_go (N.pos x) EmptyString))
            = String "-" (pretty_N_go (N.pos x) EmptyString)) as ->.
    { unfold strip. simpl lstrip. apply rstrip_cons; [done|].
      by apply rstrip_pretty_N_go. }
    simpl. by rewrite Hd.
Qed.

Lemma get_assignment_int self assignment_id cell z :
  table_record self !! assignment_id = Some cell ->
  int (str cell) = inr z ->
  get_assignment self assignment_id = Return (Some z).
Proof.
  intros Hcell Hz. unfold get_assignment. rewrite Hcell, strip_length.
  destruct (blank (str cell)) eqn:Hb.
  - apply int_blank in Hb as [e He]. congruence.
  - simpl. by rewrite (int_strip _ _ Hz).
Qed.

(** C5. Reading the granted length from a cell: a blank cell (empty or all
    whitespace) reads as absent, [None], which is not the number [0]; a cell
    whose text [int] accepts reads as that integer, and so does a cell that
    holds an [int]; a cell that is neither blank nor an integer raises
    [StudentRecordError], which carries the record's [table_record] and
    [table_index]: no value is returned in its place. *)
Theorem get_assignment_cell (self : StudentRecord) (assignment_id : string) (cell : value) :
  table_record self !! assignment_id = Some cell ->
  (blank (str cell) = true ->
     get_assignment self assignment_id = Return None
     /\ get_assignment self assignment_id <> Return (Some 0))
  /\ (forall z, int (str cell) = inr z ->
        get_assignment self assignment_id = Return (Some z))
  /\ (forall z, cell = VInt z ->
        get_assignment self assignment_id = Return (Some z))
  /\ (forall e, blank (str cell) = false -> int (str cell) = inl e ->
        exists err,
          get_assignment self assignment_id
          = Raise (StudentRecordError assignment_id (table_record self)
                     (table_index self) err)).
Proof.
  intros Hcell. split; [|split; [|split]].
  - unfold get_assignment. rewrite Hcell, strip_length.
    intros ->. simpl. split; [done | discriminate].
  - intros z Hz. by eapply get_assignment_int.
  - intros z ->. eapply get_assignment_int; [done|]. apply int_str_int.
  - unfold get_assignment. rewrite Hcell, strip_length.
    intros e -> He. simpl. apply int_strip_error in He as [e' ->]. eauto.
Qed.

(** ** Request processing *)

Section process.
Context {externals : Externals}.
Variable env : Environment.
Implicit Types (p : Policy) (a : Assignment) (nh : option string).

Lemma granted_read self assignment_id e :
  get_request self assignment_id = Return e -> granted self assignment_id = e.
Proof. unfold granted. by intros ->. Qed.

(** One pair whose read succeeds: the reason is what the flag cases give on
    the effective day count, and the state is [after_request]. *)
Lemma process_request_read a n nh p e :
  get_request (student p) (get_id a) = Return e ->
  process_request env a n nh p
  = (Return (flag_cases env (submission p) a (effective_days e n) nh),
     after_request a n p).
Proof.
  intros He. unfold process_request, after_request, bind, effective_days.
  rewrite (granted_read _ _ _ He), He.
  destruct p as [sub st pa sh sl em]; simpl.
  destruct (keeps_existing e n); simpl;
    destruct (is_partner_assignment a); simpl;
    destruct pa; simpl; rewrite ?app_nil_r; reflexivity.
Qed.

(** A pair whose read fails stops the evaluation where it stands. *)
Lemma process_request_raise a n nh p err :
  get_request (student p) (get_id a) = Raise err ->
  process_request env a n nh p = (Raise err, p).
Proof. intros He. unfold process_request, bind. by rewrite He. Qed.

(** Queueing writes does not change what is read afterwards. *)
Lemma after_request_read a n p assignment_id :
  get_request (student (after_request a n p)) assignment_id
  = get_request (student p) assignment_id.
Proof. reflexivity. Qed.

Lemma after_request_granted a n p assignment_id :
  granted (student (after_request a n p)) assignment_id
  = granted (student p) assignment_id.
Proof. reflexivity. Qed.

Lemma process_requests_read requests nh p :
  readable (student p) requests ->
  process_requests env requests nh p
  = (Return (reason_after env p requests nh), after_requests requests p).
Proof.
  intros Hr. revert nh p Hr.
  induction requests as [|[a n] requests IH]; intros nh p Hr; [done|].
  apply Forall_cons in Hr as [Ha Hr]. simpl in Ha.
  simpl. unfold bind at 1. rewrite (process_request_read _ _ _ _ _ Ha).
  rewrite IH by exact Hr. reflexivity.
Qed.

Lemma flag_cases_overwrite sub a days nh :
  flag_cases env sub a days nh
  = match flag_cases env sub a days None with
    | Some r => Some r
    | None => nh
    end.
Proof.
  unfold flag_cases.
  repeat match goal with |- context [if ?b then _ else _] => destruct b end; reflexivity.
Qed.

(** Every reason is a non-empty string, so [if needs_human:] takes it. *)
Lemma flag_cases_truthy sub a days r :
  flag_cases env sub a days None = Some r -> truthy_opt_str (Some r) = true.
Proof.
  unfold flag_cases.
  repeat match goal with |- context [if ?b then _ else _] => destruct b end;
    intros [= <-]; reflexivity.
Qed.

Lemma reason_after_quiet p requests nh :
  Forall (fun request => escalates env p request = false) requests ->
  reason_after env p requests nh = nh.
Proof.
  induction 1 as [|request requests Hq _ IH]; [done|].
  unfold reason_after in *. simpl. rewrite flag_cases_overwrite.
  unfold escalates in Hq. apply bool_decide_eq_false in Hq.
  destruct (flag_cases _ _ _ _ None) eqn:Hf; [|exact IH].
  destruct Hq. eauto.
Qed.

Lemma reason_after_last p before request after nh r :
  flag_cases env (submission p) request.1 (days_of p request) None = Some r ->
  Forall (fun request => escalates env p request = false) after ->
  reason_after env p (before ++ request :: after) nh = Some r.
Proof.
  intros Hr Hq. unfold reason_after. rewrite foldl_app. simpl.
  rewrite flag_cases_overwrite, Hr. by apply reason_after_quiet.
Qed.

Lemma after_requests_student requests p :
  student (after_requests requests p)
  = mkStudentRecord (table_record (student p)) (table_index (student p))
      (write_queue (student p) ++ map (queued_write (student p)) requests).
Proof.
  revert p. induction requests as [|[a n] requests IH]; intros p.
  - simpl. rewrite app_nil_r. by destruct (student p).
  - unfold after_requests in *. simpl. rewrite IH. simpl.
    by rewrite <- app_assoc.
Qed.

Lemma after_requests_partner requests p :
  partner (after_requests requests p)
  = (fun q => mkStudentRecord (table_record q) (table_index q)
       (write_queue q ++
          map (queued_write (student p))
            (List.filter (fun request => is_partner_assignment request.1) requests)))
    <$> partner p.
Proof.
  revert p. induction requests as [|[a n] requests IH]; intros p.
  - simpl. destruct (partner p) as [[]|]; simpl; by rewrite ?app_nil_r.
  - unfold after_requests in *. simpl. rewrite IH. simpl.
    destruct (is_partner_assignment a); simpl; [|done].
    destruct (partner p) as [q|]; simpl; [|done].
    by rewrite <- app_assoc.
Qed.

Lemma after_requests_frame requests p :
  submission (after_requests requests p) = submission p
  /\ sheet_records (after_requests requests p) = sheet_records p
  /\ emails (after_requests requests p) = emails p.
Proof.
  revert p. induction requests as [|[a n] requests IH]; intros p; [done|].
  unfold after_requests in *. simpl. by destruct (IH (after_request a n p)) as (-> & -> & ->).
Qed.

Lemma effective_days_ge e n : n <= effective_days e n.
Proof.
  unfold effective_days, keeps_existing. destruct e as [x|]; simpl; [|lia].
  destruct (negb (x =? 0)); simpl; [|lia].
  destruct (n <=? x) eqn:Hle; simpl; lia.
Qed.

Lemma effective_days_keeps x n :
  x <> 0 -> n <= x ->
  keeps_existing (Some x) n = true /\ effective_days (Some x) n = x.
Proof.
  intros Hx Hn. unfold effective_days, keeps_existing. simpl.
  apply Z.eqb_neq in Hx. apply Z.leb_le in Hn. by rewrite Hx, Hn.
Qed.

(** C1. A pair whose effective day count is exactly the threshold that
    applies to the submission (the general one without the DSP claim, the
    DSP one with it) sets no threshold reason: [needs_human] keeps its value,
    or becomes the retroactive reason when the assignment is past due.  One
    day more and the pair sets a threshold reason, always. *)
Theorem threshold_boundary a n nh p e :
  get_request (student p) (get_id a) = Return e ->
  let days := effective_days e n in
  let needs_human := (process_request env a n nh p).1 in
  let unless_past_due :=
    Return (if is_past_due a (get_timestamp (submission p))
            then Some reason_retroactive else nh) in
  (claims_dsp (submission p) = false ->
     (days = get_auto_approve_threshold env -> needs_human = unless_past_due)
     /\ (days = get_auto_approve_threshold env + 1 ->
          needs_human
          = Return (Some (if get_auto_approve_threshold env <=? 0
                          then reason_disabled else reason_threshold env days))))
  /\ (claims_dsp (submission p) = true ->
       (days = get_auto_approve_threshold_dsp env -> needs_human = unless_past_due)
       /\ (days = get_auto_approve_threshold_dsp env + 1 ->
            needs_human = Return (Some (reason_threshold_dsp days)))).
Proof.
  intros He days needs_human unless_past_due.
  subst needs_human unless_past_due. rewrite (process_request_read _ _ _ _ _ He).
  fold days. simpl. unfold flag_cases.
  split; intros ->; simpl; split; intros Hd; rewrite Hd.
  - by rewrite Z.gtb_ltb, Z.ltb_irrefl.
  - rewrite Z.gtb_ltb, (proj2 (Z.ltb_lt _ _)) by lia.
    by destruct (_ <=? 0).
  - by rewrite Z.gtb_ltb, Z.ltb_irrefl.
  - by rewrite Z.gtb_ltb, (proj2 (Z.ltb_lt _ _)) by lia.
Qed.

(** C2. When several pairs would each escalate, the reason that comes out
    is that of the last pair that does, whatever [needs_human] held before
    the loop, the reason of the check on the number of requests included;
    and every pair queues its write on the student's record (and, for a
    partner assignment, on the partner's), escalation or not. *)
Theorem last_escalation_wins p (before after : list (Assignment * Z)) a n r :
  let requests := (before ++ (a, n) :: after)%list in
  readable (student p) requests ->
  flag_cases env (submission p) a (days_of p (a, n)) None = Some r ->
  Forall (fun request => escalates env p request = false) after ->
  exists p',
    (forall nh, process_requests env requests nh p = (Return (Some r), p'))
    /\ write_queue (student p')
       = (write_queue (student p) ++ map (queued_write (student p)) requests)%list
    /\ write_queue <$> partner p'
       = (fun q => write_queue q ++
            map (queued_write (student p))
              (List.filter (fun request => is_partner_assignment request.1) requests))%list
         <$> partner p
    /\ (get_requests (submission p) = requests ->
        process_submission env p = (mark_pending ;; ret (Some r)) p').
Proof.
  intros requests Hread Hr Hafter. exists (after_requests requests p).
  assert (forall nh, process_requests env requests nh p
                     = (Return (Some r), after_requests requests p)) as Hloop.
  { intros nh. rewrite (process_requests_read _ _ _ Hread). unfold requests.
    by rewrite (reason_after_last p before (a, n) after nh r Hr Hafter). }
  split; [exact Hloop|]. split; [by rewrite after_requests_student|].
  split; [rewrite after_requests_partner; by destruct (partner p)|].
  intros Hreq. unfold process_submission. rewrite Hreq.
  unfold bind at 1. rewrite Hloop.
  by rewrite (flag_cases_truthy _ _ _ _ Hr).
Qed.

(** C3, amended. When the granted length on file for the assignment is not
    zero and the requested days are at most that length, the pair queues the
    length on file on the student's record, it adds the warning, and the
    replacement itself sets no reason: [needs_human] is what the flag cases
    give for a request of the length on file, so it keeps its value when
    that length is within the threshold that applies and the assignment is
    not past due. *)
Theorem shorter_request_keeps_existing a n nh p existing :
  get_request (student p) (get_id a) = Return (Some existing) ->
  existing <> 0 ->
  n <= existing ->
  let after := process_request env a n nh p in
  write_queue (student after.2)
  = (write_queue (student p) ++ [(get_id a, VInt existing)])%list
  /\ slack after.2
     = (slack p ++ [add_warning (warning_kept_existing a n existing)])%list
  /\ after.1 = Return (flag_cases env (submission p) a existing nh)
  /\ (existing <= (if claims_dsp (submission p)
                   then get_auto_approve_threshold_dsp env
                   else get_auto_approve_threshold env) ->
      is_past_due a (get_timestamp (submission p)) = false ->
      after.1 = Return nh).
Proof.
  intros He Hx Hn after. subst after.
  rewrite (process_request_read _ _ _ _ _ He).
  destruct (effective_days_keeps existing n Hx Hn) as [Hk Hd].
  unfold after_request. rewrite (granted_read _ _ _ He), Hk, Hd. simpl.
  repeat split. intros Hle Hdue. unfold flag_cases. rewrite Hdue.
  destruct (claims_dsp (submission p)); simpl;
    by rewrite Z.gtb_ltb, (proj2 (Z.ltb_ge _ _)) by lia.
Qed.

(** C6, amended. Without the DSP claim and with a general threshold of zero
    or below, every pair whose effective day count is above the threshold
    sets the reason that auto-approve is disabled; every pair that asks for
    one day or more is such a pair. *)
Theorem disabled_threshold_escalates a n nh p e :
  get_request (student p) (get_id a) = Return e ->
  claims_dsp (submission p) = false ->
  get_auto_approve_threshold env <= 0 ->
  (get_auto_approve_threshold env < effective_days e n ->
     (process_request env a n nh p).1 = Return (Some reason_disabled))
  /\ (0 < n -> (process_request env a n nh p).1 = Return (Some reason_disabled)).
Proof.
  intros He Hdsp Hthr.
  assert (get_auto_approve_threshold env < effective_days e n ->
          (process_request env a n nh p).1 = Return (Some reason_disabled)) as H.
  { intros Hlt. rewrite (process_request_read _ _ _ _ _ He). simpl.
    unfold flag_cases. rewrite Hdsp. simpl.
    rewrite Z.gtb_ltb, (proj2 (Z.ltb_lt _ _)) by lia.
    by rewrite (proj2 (Z.leb_le _ _)) by lia. }
  split; [exact H|]. intros Hn. apply H. pose proof (effective_days_ge e n). lia.
Qed.

(** C9. A cell that reads as the integer [0] counts as no request:
    [has_existing_request] answers [False], and a pair for that assignment
    is processed as if nothing was on file: no warning is added and the
    requested days, whatever they are, are queued in place of the [0]. *)
Theorem zero_is_no_request a n nh p :
  get_assignment (student p) (get_id a) = Return (Some 0) ->
  has_existing_request (student p) (get_id a) = Return false
  /\ (process_request env a n nh p).1
     = Return (flag_cases env (submission p) a n nh)
  /\ slack (process_request env a n nh p).2 = slack p
  /\ write_queue (student (process_request env a n nh p).2)
     = (write_queue (student p) ++ [(get_id a, VInt n)])%list.
Proof.
  intros H0. unfold has_existing_request. rewrite H0. split; [done|].
  assert (get_request (student p) (get_id a) = Return (Some 0)) as He by exact H0.
  rewrite (process_request_read _ _ _ _ _ He).
  unfold after_request. rewrite (granted_read _ _ _ He). simpl.
  by rewrite app_nil_r.
Qed.

End process.

(** ** The evaluation as a whole *)

Section apply.
Context {externals : Externals}.
Variable env : Environment.
Implicit Types (p : Policy) (silent : bool).


(** An evaluation that passes every escalation check goes on to steps 4
    to 6. *)
Lemma apply_clear silent p0 p1 p nh wip :
  knows_assignments (submission p0) = true ->
  process_submission env
    (if silent then set_slack p0 (slack p0 ++ [suppress]) else p0) = (Return nh, p1) ->
  truthy_opt_str nh = false ->
  check_work_in_progress p1 = (Return wip, p) ->
  truthy_opt_str wip = false ->
  apply env silent p0 = approve_and_email silent p.
Proof.
  intros Hk Hps Hnh Hwip Hw. unfold apply, bind, slack_call, ret.
  destruct silent; simpl; rewrite Hk; simpl; by rewrite Hps, Hnh, Hwip, Hw.
Qed.

Lemma check_for_warnings_slack p :
  (claims_dsp (submission p) = true -> is_Some (table_record (student p) !! "is_dsp")) ->
  check_for_warnings p
  = (Return tt,
     set_slack p
       (slack p ++
          if claims_dsp (submission p) && negb (on_file_dsp (student p))
          then [add_warning (warning_dsp (submission p))] else [])).
Proof.
  intros Hfile.
  unfold check_for_warnings, bind, is_dsp, getitem, on_file_dsp, slack_call, ret.
  destruct (claims_dsp (submission p)); simpl.
  - destruct Hfile as [v ->]; [done|].
    destruct (truthy v); simpl; rewrite ?app_nil_r; by destruct p.
  - rewrite app_nil_r. by destruct p.
Qed.

(** C7, amended. In an evaluation that passes every escalation check, with
    the on-file flag readable, the check for warnings adds its warning
    exactly when the submission claims DSP and the record is not marked for
    it; it adds none when the record is marked and the submission does not
    claim it.  The check returns without a reason, changes nothing but the
    warnings, and approval runs next. *)
Theorem dsp_warning silent p0 p1 p nh wip :
  knows_assignments (submission p0) = true ->
  process_submission env
    (if silent then set_slack p0 (slack p0 ++ [suppress]) else p0) = (Return nh, p1) ->
  truthy_opt_str nh = false ->
  check_work_in_progress p1 = (Return wip, p) ->
  truthy_opt_str wip = false ->
  (claims_dsp (submission p) = true -> is_Some (table_record (student p) !! "is_dsp")) ->
  let warned :=
    set_slack p
      (slack p ++
         if claims_dsp (submission p) && negb (on_file_dsp (student p))
         then [add_warning (warning_dsp (submission p))] else []) in
  check_for_warnings p = (Return tt, warned)
  /\ apply env silent p0 = (approve ;; send_emails silent) warned.
Proof.
  intros Hk Hps Hnh Hwip Hw Hfile warned. subst warned.
  split; [by apply check_for_warnings_slack|].
  rewrite (apply_clear _ _ _ _ _ _ Hk Hps Hnh Hwip Hw).
  unfold approve_and_email. unfold bind at 1.
  by rewrite (check_for_warnings_slack _ Hfile).
Qed.

End apply.

(** ** The statements on the small roster *)

Section on_the_roster.
Import scenario.
Local Existing Instance due_100.

Lemma get_assignment_cell_witness :
  get_assignment (row false (VStr " 12 ")) "hw1" = Return (Some 12).
Proof.
  exact (proj1 (proj2 (get_assignment_cell (row false (VStr " 12 ")) "hw1"
                         (VStr " 12 ") eq_refl)) 12 eq_refl).
Defined.

Lemma dispatch_writes_empty_queue_witness :
  dispatch_writes (row false (VStr "3")) roster_sheet
  = (Return tt, row false (VStr "3"), roster_sheet).
Proof. apply dispatch_writes_empty_queue. reflexivity. Defined.

Lemma dispatch_writes_keeps_queue_witness :
  let first := dispatch_writes queued_row roster_sheet in
  let second := dispatch_writes first.1.2 first.2 in
  write_queue first.1.2 = write_queue queued_row
  /\ second.1.2 = first.1.2
  /\ cell_writes second.2
     = [(3, 4%nat, VInt 3); (3, 2%nat, VStr "Pending"); (3, 4%nat, VInt 5);
        (3, 4%nat, VInt 3); (3, 2%nat, VStr "Pending"); (3, 4%nat, VInt 5)].
Proof.
  intros first second.
  assert (dispatch_writes queued_row roster_sheet = (Return tt, first.1.2, first.2)) as H
    by (vm_compute; reflexivity).
  destruct (dispatch_writes_keeps_queue _ _ _ _ H) as (Hq & _ & _ & Hagain).
  subst second. rewrite Hagain. simpl. split; [exact Hq|]. split; [reflexivity|].
  vm_compute. reflexivity.
Defined.

Lemma threshold_boundary_witness :
  (process_request env_7 hw1 7 None (evaluation (form false [(hw1, 7)]) (row false (VStr "")))).1
  = Return None
  /\ (process_request env_7 hw1 8 None
        (evaluation (form false [(hw1, 8)]) (row false (VStr "")))).1
     = Return (Some "a request of 8 days is greater than auto-approve threshold of 7 days")
  /\ (process_request env_7 hw1 14 None
        (evaluation (form true [(hw1, 14)]) (row true (VStr "")))).1
     = Return None
  /\ (process_request env_7 hw1 15 None
        (evaluation (form true [(hw1, 15)]) (row true (VStr "")))).1
     = Return (Some "a DSP request of 15 days is greater than DSP auto-approve threshold").
Proof.
  split; [|split; [|split]].
  - exact (proj1 (proj1 (threshold_boundary env_7 hw1 7 None
             (evaluation (form false [(hw1, 7)]) (row false (VStr ""))) None eq_refl)
             eq_refl) eq_refl).
  - exact (proj2 (proj1 (threshold_boundary env_7 hw1 8 None
             (evaluation (form false [(hw1, 8)]) (row false (VStr ""))) None eq_refl)
             eq_refl) eq_refl).
  - exact (proj1 (proj2 (threshold_boundary env_7 hw1 14 None
             (evaluation (form true [(hw1, 14)]) (row true (VStr ""))) None eq_refl)
             eq_refl) eq_refl).
  - exact (proj2 (proj2 (threshold_boundary env_7 hw1 15 None
             (evaluation (form true [(hw1, 15)]) (row true (VStr ""))) None eq_refl)
             eq_refl) eq_refl).
Defined.

Lemma last_escalation_wins_witness :
  let requests := [(hw1, 9); (project, 10); (hw2, 3)] in
  let p := evaluation_with_partner (form false requests) (row false (VStr "")) in
  let after := process_requests env_7 requests (too_many_requests env_7 (submission p)) p in
  too_many_requests env_7 (submission p) = Some (reason_too_many_requests 3)
  /\ after.1
     = Return (Some "a request of 10 days is greater than auto-approve threshold of 7 days")
  /\ write_queue (student after.2) = [("hw1", VInt 9); ("proj1", VInt 10); ("hw2", VInt 3)]
  /\ write_queue <$> partner after.2 = Some [("proj1", VInt 10)].
Proof.
  intros requests p after.
  destruct (last_escalation_wins env_7 p [(hw1, 9)] [(hw2, 3)] project 10
              "a request of 10 days is greater than auto-approve threshold of 7 days")
    as (p' & Hloop & Hq & Hp & _).
  - repeat constructor.
  - reflexivity.
  - repeat constructor.
  - subst after. change requests with ([(hw1, 9)] ++ (project, 10) :: [(hw2, 3)])%list.
    rewrite Hloop. simpl. rewrite Hq, Hp.
    split; [reflexivity|]. split; [reflexivity|]. split; reflexivity.
Defined.

Lemma shorter_request_keeps_existing_witness :
  let p := evaluation (form false [(hw1, 3)]) (row false (VStr "5")) in
  let after := process_request env_7 hw1 3 None p in
  write_queue (student after.2) = [("hw1", VInt 5)]
  /\ slack after.2
     = [add_warning
          ("[Homework 1] student requested an extension for 3 days, which was <= an "
           +:+ "existing request of 5 days, so we kept the existing request in-place.")]
  /\ after.1 = Return None.
Proof.
  intros p after.
  destruct (shorter_request_keeps_existing env_7 hw1 3 None p 5)
    as (Hq & Hs & _ & Hquiet); [reflexivity | lia | lia |].
  split; [exact Hq|]. split; [exact Hs|]. apply Hquiet; [simpl; lia | reflexivity].
Defined.

(** C3 as stated fails when the length on file is [0]: the pair below asks
    for no more than what is on file, and no warning is added. *)
Lemma zero_on_file_no_warning :
  let p := evaluation (form false [(hw1, 0)]) (row false (VStr "0")) in
  get_request (student p) "hw1" = Return (Some 0)
  /\ 0 <= 0
  /\ slack (process_request env_7 hw1 0 None p).2 = [].
Proof. split; [reflexivity|]. split; [lia | reflexivity]. Qed.

Lemma disabled_threshold_escalates_witness :
  (process_request env_0 hw1 1 None
     (evaluation (form false [(hw1, 1)]) (row false (VStr "")))).1
  = Return (Some "auto-approve is disabled").
Proof.
  apply (disabled_threshold_escalates env_0 hw1 1 None
           (evaluation (form false [(hw1, 1)]) (row false (VStr ""))) None);
    [reflexivity | reflexivity | simpl; lia | lia].
Defined.

(** C6 as stated fails for a pair that asks for zero days while the
    threshold is zero: no reason is set and the submission goes on to
    approval. *)
Lemma disabled_threshold_zero_days :
  let p := evaluation (form false [(hw1, 0)]) (row false (VStr "")) in
  claims_dsp (submission p) = false
  /\ get_auto_approve_threshold env_0 <= 0
  /\ (process_request env_0 hw1 0 None p).1 = Return None
  /\ (process_submission env_0 p).1 = Return None.
Proof.
  split; [reflexivity|]. split; [simpl; lia|]. split; reflexivity.
Qed.

Lemma dsp_warning_witness :
  let p0 := evaluation (form true [(hw1, 3)]) (row false (VStr "")) in
  slack (apply env_7 false p0).2
  = [add_warning
       ("Student oski@berkeley.edu responded 'Yes' to DSP question in extension "
        +:+ "request, but is not marked for DSP approval on the roster. "
        +:+ "Please investigate!");
     send_student_update "An extension request was automatically approved!" true].
Proof.
  intros p0.
  pose (p1 := (process_submission env_7 p0).2).
  pose (p := (check_work_in_progress p1).2).
  assert (claims_dsp (submission p) = true ->
          is_Some (table_record (student p) !! "is_dsp")) as Hfile
    by (intros _; eexists; vm_compute; reflexivity).
  destruct (dsp_warning env_7 false p0 p1 p None None) as [_ Happly];
    [reflexivity | vm_compute; reflexivity | reflexivity
    | vm_compute; reflexivity | reflexivity | exact Hfile |].
  rewrite Happly. vm_compute. reflexivity.
Defined.

(** C7 as stated fails for the mismatch in the other direction: the record
    is marked for DSP, the submission does not claim it, and the evaluation
    approves without any warning. *)
Lemma unclaimed_dsp_no_warning :
  let p := evaluation (form false [(hw1, 3)]) (row true (VStr "")) in
  claims_dsp (submission p) = false
  /\ on_file_dsp (student p) = true
  /\ slack (check_for_warnings p).2 = []
  /\ slack (apply env_7 false p).2
     = [send_student_update "An extension request was automatically approved!" true].
Proof.
  split; [reflexivity|]. split; [reflexivity|]. split; [reflexivity|].
  vm_compute. reflexivity.
Qed.

Lemma zero_is_no_request_witness :
  let p := evaluation (form false [(hw1, 3)]) (row false (VStr "0")) in
  has_existing_request (student p) "hw1" = Return false
  /\ slack (process_request env_7 hw1 3 None p).2 = []
  /\ write_queue (student (process_request env_7 hw1 3 None p).2) = [("hw1", VInt 3)].
Proof.
  intros p.
  destruct (zero_is_no_request env_7 hw1 3 None p eq_refl) as (Hh & _ & Hs & Hq).
  split; [exact Hh|]. split; [exact Hs | exact Hq].
Defined.

End on_the_roster.

(** * Further properties *)

Import vocabulary.

(** ** Dispatching the queue *)

Lemma index_Some l x i :
  index l x = Some i ->
  l !! i = Some x /\ forall j, (j < i)%nat -> l !! j <> Some x.
Proof.
  revert i. induction l as [|y l IH]; intros i; simpl; [done|].
  destruct (String.eqb y x) eqn:Hy.
  - intros [= <-]. apply String.eqb_eq in Hy as ->. split; [done|]. lia.
  - destruct (index l x) as [i'|]; [|done]. intros [= <-].
    destruct (IH i' eq_refl) as [Hi Hj]. split; [done|].
    intros [|j] Hlt; simpl.
    + intros [= ->]. by rewrite String.eqb_refl in Hy.
    + apply Hj. lia.
Qed.

Lemma index_None l x : index l x = None <-> x ∉ l.
Proof.
  induction l as [|y l IH]; simpl.
  - split; [intros _; apply not_elem_of_nil | done].
  - rewrite not_elem_of_cons. destruct (String.eqb y x) eqn:Hy.
    + apply String.eqb_eq in Hy as ->. split; [done | by intros [? _]].
    + apply String.eqb_neq in Hy. destruct (index l x); simpl.
      * split; [done|]. intros [_ H]. by apply IH in H.
      * split; [|done]. intros _. split; [congruence | by apply IH].
Qed.

Lemma index_is_Some l x : is_Some (index l x) <-> x ∈ l.
Proof.
  destruct (index l x) eqn:H.
  - split; [|eauto]. intros _. destruct (decide (x ∈ l)) as [|Hn]; [done|].
    apply index_None in Hn. congruence.
  - apply index_None in H. split; [by intros [? ?] | done].
Qed.

Lemma written_lookup cached queue k :
  written cached queue !! k
  = match last_write queue k with
    | Some v => Some v
    | None => cached !! k
    end.
Proof.
  revert cached. induction queue as [|[k' v] queue IH]; intros cached; [done|].
  unfold written in *. simpl. rewrite IH.
  destruct (last_write queue k); [done|].
  destruct (String.eqb k' k) eqn:Hk.
  - apply String.eqb_eq in Hk as ->. by rewrite lookup_insert_eq.
  - apply String.eqb_neq in Hk. by rewrite lookup_insert_ne.
Qed.

Lemma last_write_snoc queue k v : last_write (queue ++ [(k, v)]) k = Some v.
Proof.
  induction queue as [|[k' v'] queue IH]; simpl.
  - by rewrite String.eqb_refl.
  - by rewrite IH.
Qed.

Lemma written_app cached q1 q2 :
  written cached (q1 ++ q2) = written (written cached q1) q2.
Proof. unfold written. by rewrite foldl_app. Qed.

Lemma commits_app headers row_index q1 q2 :
  commits headers row_index (q1 ++ q2)
  = (commits headers row_index q1 ++ commits headers row_index q2)%list.
Proof. unfold commits. by rewrite omap_app. Qed.

(** The pairs of a queue that can be written are written before the loop
    looks at the rest. *)
Lemma dispatch_loop_app headers row_index q1 q2 cached sheet :
  Forall (fun kv : string * value => is_Some (index headers kv.1)) q1 ->
  dispatch_loop headers row_index (q1 ++ q2) cached sheet
  = dispatch_loop headers row_index q2 (written cached q1)
      (mkSheet (get_headers sheet) (cell_writes sheet ++ commits headers row_index q1)).
Proof.
  intros Hq. revert cached sheet.
  induction Hq as [|[k v] q1 [c Hc] _ IH]; intros cached sheet; simpl.
  - rewrite app_nil_r. by destruct sheet.
  - simpl in Hc. rewrite Hc, IH. unfold commits, cell_write; simpl.
    rewrite Hc; simpl. by rewrite <- app_assoc.
Qed.

Lemma dispatch_writes_returned self sheet self1 sheet1 :
  dispatch_writes self sheet = (Return tt, self1, sheet1) ->
  Forall (fun kv : string * value => is_Some (index (get_headers sheet) kv.1))
    (write_queue self)
  /\ self1 = mkStudentRecord (written (table_record self) (write_queue self))
               (table_index self) (write_queue self)
  /\ sheet1 = mkSheet (get_headers sheet)
                (cell_writes sheet
                 ++ commits (get_headers sheet) (table_index self) (write_queue self)).
Proof.
  unfold dispatch_writes. intros H.
  destruct (dispatch_loop _ _ _ _ _) as [[r cached] sh] eqn:Hloop.
  injection H as -> <- <-.
  apply dispatch_loop_returned in Hloop as Hq. split; [done|].
  rewrite (dispatch_loop_commits _ _ _ _ _ Hq) in Hloop. by injection Hloop as <- <-.
Qed.

(** X1. After a dispatch that succeeds, a column of the cached row holds the
    value the queue wrote there last; a column the queue does not mention
    holds what it held before. *)
Theorem dispatch_writes_read_back self sheet self1 sheet1 col_key :
  dispatch_writes self sheet = (Return tt, self1, sheet1) ->
  table_record self1 !! col_key
  = match last_write (write_queue self) col_key with
    | Some v => Some v
    | None => table_record self !! col_key
    end.
Proof.
  intros (_ & -> & _)%dispatch_writes_returned. simpl. apply written_lookup.
Qed.

(** X2. A day count queued for an assignment and dispatched is what
    [get_assignment] reads from the record afterwards. *)
Theorem queued_days_read_back self sheet self1 sheet1 assignment_id num_days :
  dispatch_writes (queue_write_back self assignment_id (VInt num_days)) sheet
  = (Return tt, self1, sheet1) ->
  get_assignment self1 assignment_id = Return (Some num_days).
Proof.
  intros (_ & -> & _)%dispatch_writes_returned.
  eapply get_assignment_int; [|apply int_str_int].
  simpl. by rewrite written_lookup, last_write_snoc.
Qed.

(** X3. A queued key that is no header stops the dispatch with
    [ValueError]: the pairs queued before it are already in the store and
    in the cached row, the pairs after it are not, and the queue is as it
    was. *)
Theorem dispatch_writes_unknown_column self sheet before col_key v after :
  write_queue self = (before ++ (col_key, v) :: after)%list ->
  Forall (fun kv : string * value => kv.1 ∈ get_headers sheet) before ->
  col_key ∉ get_headers sheet ->
  dispatch_writes self sheet
  = (Raise (ValueError ("'" +:+ col_key +:+ "' is not in list")),
     mkStudentRecord (written (table_record self) before) (table_index self)
       (write_queue self),
     mkSheet (get_headers sheet)
       (cell_writes sheet ++ commits (get_headers sheet) (table_index self) before)).
Proof.
  intros Hq Hbefore Hkey. unfold dispatch_writes. rewrite Hq at 1.
  rewrite dispatch_loop_app.
  - simpl. apply index_None in Hkey. by rewrite Hkey.
  - eapply Forall_impl; [exact Hbefore|]. intros kv. apply index_is_Some.
Qed.

(** X5. A dispatch that succeeds sends the store one cell write per queued
    pair, in queue order: each goes to the row of the record and to the
    first column whose header is the pair's key, and carries the pair's
    value. *)
Theorem dispatch_writes_cells self sheet self1 sheet1 :
  dispatch_writes self sheet = (Return tt, self1, sheet1) ->
  exists cells,
    cell_writes sheet1 = (cell_writes sheet ++ cells)%list
    /\ Forall2 (fun (kv : string * value) (cell : Z * nat * value) =>
                  cell.1.1 = table_index self
                  /\ cell.2 = kv.2
                  /\ get_headers sheet !! cell.1.2 = Some kv.1
                  /\ forall j, (j < cell.1.2)%nat -> get_headers sheet !! j <> Some kv.1)
         (write_queue self) cells.
Proof.
  intros (Hq & _ & ->)%dispatch_writes_returned. eexists. split; [done|].
  induction Hq as [|[k w] q [c Hc] _ IH]; [constructor|].
  unfold commits, cell_write in *. simpl in *. rewrite Hc. simpl.
  constructor; [|exact IH]. simpl. by destruct (index_Some _ _ _ Hc).
Qed.

(** ** Reading and counting existing requests *)

Lemma get_assignment_error self assignment_id e :
  get_assignment self assignment_id = Raise e ->
  exists err,
    e = StudentRecordError assignment_id (table_record self) (table_index self) err.
Proof.
  unfold get_assignment.
  destruct (table_record self !! assignment_id); [|intros [= <-]; eauto].
  destruct (_ <? _)%nat; [|done].
  destruct (int _); [intros [= <-]; eauto | done].
Qed.

(** X6. A column that the row does not have is not read as blank:
    [get_assignment] raises [StudentRecordError] around the [KeyError]; and
    whatever it raises is a [StudentRecordError] that carries the assignment
    identifier, the row and its index. *)
Theorem get_assignment_raises self assignment_id :
  (table_record self !! assignment_id = None ->
     get_assignment self assignment_id
     = Raise (StudentRecordError assignment_id (table_record self) (table_index self)
                (KeyError assignment_id)))
  /\ (forall e, get_assignment self assignment_id = Raise e ->
        exists err,
          e = StudentRecordError assignment_id (table_record self) (table_index self) err).
Proof.
  split; [|apply get_assignment_error].
  unfold get_assignment. by intros ->.
Qed.

(** X7. Queueing a write changes nothing that can be read from the
    record: every column, every granted length and every count is as
    before, until the queue is dispatched. *)
Theorem queue_write_back_unseen self col_key v :
  table_record (queue_write_back self col_key v) = table_record self
  /\ (forall assignment_id,
        get_assignment (queue_write_back self col_key v) assignment_id
        = get_assignment self assignment_id)
  /\ (forall all_ids,
        existing_request_count (queue_write_back self col_key v) all_ids
        = existing_request_count self all_ids).
Proof.
  split; [done|]. split; [done|]. intros all_ids. unfold existing_request_count.
  generalize 0. induction all_ids as [|i ids IH]; intros c; simpl; [done|].
  change (get_assignment (queue_write_back self col_key v) i)
    with (get_assignment self i).
  destruct (get_assignment self i); [apply IH | done].
Qed.

Lemma existing_request_count_from_legible self all_ids count :
  Forall (legible self) all_ids ->
  existing_request_count_from self all_ids count
  = Return (count + Z.of_nat (length (List.filter (counted self) all_ids))).
Proof.
  intros H. revert count. induction H as [|i ids [r Hr] _ IH]; intros count; simpl.
  - f_equal. lia.
  - unfold counted at 1. rewrite Hr, IH.
    destruct (truthy_opt_int r); simpl; f_equal; lia.
Qed.

(** X8. When every cell can be read, [existing_request_count] returns the
    number of assignments whose cell reads as an integer other than zero:
    blank cells and cells that read [0] are not counted, and the count is
    between zero and the number of assignments. *)
Theorem existing_request_count_counts self all_ids :
  Forall (legible self) all_ids ->
  exists count,
    existing_request_count self all_ids = Return count
    /\ count = Z.of_nat (length (List.filter (counted self) all_ids))
    /\ 0 <= count <= Z.of_nat (length all_ids)
    /\ forall assignment_id,
         counted self assignment_id = true
         <-> exists z, get_assignment self assignment_id = Return (Some z) /\ z <> 0.
Proof.
  intros H. eexists. split; [by apply existing_request_count_from_legible|].
  simpl. split; [done|]. split.
  - pose proof (filter_length (counted self) all_ids). lia.
  - intros i. unfold counted. destruct (get_assignment self i) as [[z|]|e]; simpl.
    + rewrite negb_true_iff, Z.eqb_neq. split; [eauto | by intros (? & [= <-] & ?)].
    + split; [done | by intros (? & ? & ?)].
    + split; [done | by intros (? & ? & ?)].
Qed.

(** X9. One cell that cannot be read makes the whole count fail: the
    error of the first such cell comes out, whatever the other cells hold. *)
Theorem existing_request_count_raises self before assignment_id after err :
  Forall (legible self) before ->
  get_assignment self assignment_id = Raise err ->
  existing_request_count self (before ++ assignment_id :: after) = Raise err.
Proof.
  intros Hb He. unfold existing_request_count. generalize 0.
  induction Hb as [|i ids [r Hr] _ IH]; intros count; simpl.
  - by rewrite He.
  - rewrite Hr. apply IH.
Qed.

(** ** The request loop and its outcome *)

Section loop.
Context {externals : Externals}.
Variable env : Environment.
Implicit Types (p : Policy) (a : Assignment) (nh : option string).

Lemma process_requests_raise (before after : list (Assignment * Z)) a n nh p err :
  readable (student p) before ->
  get_request (student p) (get_id a) = Raise err ->
  process_requests env (before ++ (a, n) :: after) nh p
  = (Raise err, after_requests before p).
Proof.
  intros Hb. revert nh p Hb.
  induction before as [|[a' n'] before IH]; intros nh p Hb He; simpl.
  - unfold bind. by rewrite (process_request_raise _ _ _ _ _ _ He).
  - apply Forall_cons in Hb as [Ha Hb]. simpl in Ha.
    unfold bind at 1. rewrite (process_request_read _ _ _ _ _ _ Ha).
    by rewrite IH.
Qed.

Lemma after_requests_slack requests p :
  exists texts, slack (after_requests requests p) = (slack p ++ map add_warning texts)%list.
Proof.
  revert p. induction requests as [|[a n] requests IH]; intros p.
  - exists []. simpl. by rewrite app_nil_r.
  - unfold after_requests in *. simpl.
    destruct (IH (after_request a n p)) as [texts ->]. simpl.
    destruct (keeps_existing _ _).
    + eexists (_ :: texts). by rewrite <- app_assoc.
    + exists texts. by rewrite app_nil_r.
Qed.

Lemma too_many_requests_truthy sub :
  truthy_opt_str (too_many_requests env sub)
  = bool_decide (is_Some (too_many_requests env sub)).
Proof. unfold too_many_requests. by destruct (_ && _). Qed.

Lemma flag_cases_sound sub a days nh :
  truthy_opt_str nh = bool_decide (is_Some nh) ->
  truthy_opt_str (flag_cases env sub a days nh)
  = bool_decide (is_Some (flag_cases env sub a days nh)).
Proof.
  intros Hnh. unfold flag_cases.
  repeat match goal with |- context [if ?b then _ else _] => destruct b end;
    done.
Qed.

Lemma reason_after_sound p requests nh :
  truthy_opt_str nh = bool_decide (is_Some nh) ->
  truthy_opt_str (reason_after env p requests nh)
  = bool_decide (is_Some (reason_after env p requests nh)).
Proof.
  revert nh. induction requests as [|request requests IH]; intros nh Hnh; [done|].
  unfold reason_after in *. simpl. by apply IH, flag_cases_sound.
Qed.

Lemma reason_after_sticky p requests nh :
  is_Some nh -> is_Some (reason_after env p requests nh).
Proof.
  revert nh. induction requests as [|request requests IH]; intros nh Hnh; [done|].
  unfold reason_after in *. simpl. apply IH. rewrite flag_cases_overwrite.
  by destruct (flag_cases _ _ _ _ None).
Qed.

Lemma reason_after_escalates p requests request nh :
  request ∈ requests ->
  escalates env p request = true ->
  is_Some (reason_after env p requests nh).
Proof.
  intros Hin Hesc. apply list_elem_of_split in Hin as (before & after & ->).
  unfold reason_after. rewrite foldl_app. simpl.
  apply reason_after_sticky. rewrite flag_cases_overwrite.
  apply bool_decide_eq_true in Hesc. by destruct Hesc as [r ->].
Qed.

(** The outcome of [process_submission] when every cell can be read. *)
Lemma process_submission_read p :
  readable (student p) (get_requests (submission p)) ->
  process_submission env p
  = ((if truthy_opt_str
           (reason_after env p (get_requests (submission p))
              (too_many_requests env (submission p)))
      then mark_pending else ret tt) ;;
     ret (reason_after env p (get_requests (submission p))
            (too_many_requests env (submission p))))
      (after_requests (get_requests (submission p)) p).
Proof.
  intros Hr. unfold process_submission. unfold bind at 1.
  by rewrite (process_requests_read _ _ _ _ Hr).
Qed.

(** X10. A cell that cannot be read stops the evaluation with the
    [StudentRecordError] of that cell: the pairs before it have queued their
    writes, but nothing was dispatched to the sheet, no status was set, no
    update went to Slack and no email was sent. *)
Theorem unreadable_cell_aborts silent p (before after : list (Assignment * Z)) a n err :
  knows_assignments (submission p) = true ->
  get_requests (submission p) = (before ++ (a, n) :: after)%list ->
  readable (student p) before ->
  get_request (student p) (get_id a) = Raise err ->
  let stopped := after_requests before (started silent p) in
  apply env silent p = (Raise err, stopped)
  /\ sheet_records stopped = sheet_records p
  /\ emails stopped = emails p
  /\ (forall message autoapprove,
        send_student_update message autoapprove ∈ slack stopped ->
        send_student_update message autoapprove ∈ slack p)
  /\ exists cause,
       err = StudentRecordError (get_id a) (table_record (student p))
               (table_index (student p)) cause.
Proof.
  intros Hk Hreq Hb He stopped. subst stopped.
  assert (submission (started silent p) = submission p
          /\ student (started silent p) = student p
          /\ sheet_records (started silent p) = sheet_records p
          /\ emails (started silent p) = emails p) as (Hsub & Hst & Hsh & Hem)
    by (by destruct silent).
  split; [|split; [|split; [|split]]].
  - assert (apply env silent p
            = (fun q => if negb (knows_assignments (submission q))
                        then (on_student set_status_requested_meeting ;;
                              slack_call (send_student_update
                                "A student requested a student support meeting." false)) q
                        else (needs_human <- process_submission env ;;
                              if truthy_opt_str needs_human then
                                slack_call (send_student_update
                                  ("An extension request needs review ("
                                   +:+ default "" needs_human +:+ ").") false)
                              else
                                work_in_progress <- check_work_in_progress ;;
                                if truthy_opt_str work_in_progress then
                                  slack_call (send_student_update
                                                (default "" work_in_progress) false)
                                else approve_and_email silent) q)
                (started silent p)) as -> by (by destruct silent).
    rewrite Hsub, Hk. simpl. unfold bind at 1, process_submission. unfold bind at 1.
    rewrite Hsub, Hreq.
    rewrite (process_requests_raise before after a n _ (started silent p) err);
      [done | by rewrite Hst | by rewrite Hst].
  - by destruct (after_requests_frame before (started silent p)) as (_ & -> & _).
  - by destruct (after_requests_frame before (started silent p)) as (_ & _ & ->).
  - intros message autoapprove.
    destruct (after_requests_slack before (started silent p)) as [texts ->].
    rewrite elem_of_app, list_elem_of_fmap. intros [H|(text & [=] & _)].
    destruct silent; simpl in H; [|done].
    apply elem_of_app in H as [H|H]; [done|].
    apply list_elem_of_singleton in H. discriminate.
  - by apply get_assignment_error.
Qed.

Lemma process_submission_escalates p request :
  readable (student p) (get_requests (submission p)) ->
  request ∈ get_requests (submission p) ->
  escalates env p request = true ->
  exists r,
    r <> EmptyString
    /\ process_submission env p
       = (mark_pending ;; ret (Some r)) (after_requests (get_requests (submission p)) p).
Proof.
  intros Hr Hin Hesc. rewrite (process_submission_read _ Hr).
  pose proof (reason_after_escalates p _ _ (too_many_requests env (submission p))
                Hin Hesc) as Hsome.
  pose proof (reason_after_sound p (get_requests (submission p)) _
                (too_many_requests_truthy (submission p))) as Htruthy.
  rewrite Htruthy, bool_decide_eq_true_2 by done.
  destruct Hsome as [r Hsome]. rewrite Hsome in Htruthy |- *.
  exists r. split; [|done]. intros ->. vm_compute in Htruthy. discriminate.
Qed.

(** X11. One pair that escalates, wherever it stands among the requests,
    makes the submission escalate: [process_submission] comes out of the
    loop with a reason that is not empty and goes on to mark the records
    pending; later pairs can replace the reason, never remove it. *)
Theorem any_escalation_escalates p request :
  readable (student p) (get_requests (submission p)) ->
  request ∈ get_requests (submission p) ->
  escalates env p request = true ->
  exists r,
    r <> EmptyString
    /\ process_submission env p
       = (mark_pending ;; ret (Some r)) (after_requests (get_requests (submission p)) p).
Proof. apply process_submission_escalates. Qed.

(** X12. When no pair escalates, the check on the number of requests alone
    decides: its reason, if it has one, is the reason returned and the
    records are marked pending; if it has none, [process_submission]
    returns [None] having set no status and dispatched nothing, the writes
    of the pairs still queued. *)
Theorem no_pair_escalates p :
  readable (student p) (get_requests (submission p)) ->
  Forall (fun request => escalates env p request = false) (get_requests (submission p)) ->
  let queued := after_requests (get_requests (submission p)) p in
  (too_many_requests env (submission p) = None ->
     process_submission env p = (Return None, queued)
     /\ sheet_records queued = sheet_records p)
  /\ (forall r, too_many_requests env (submission p) = Some r ->
        process_submission env p = (mark_pending ;; ret (Some r)) queued).
Proof.
  intros Hr Hq queued. subst queued.
  rewrite (process_submission_read _ Hr), (reason_after_quiet _ _ _ _ Hq).
  split.
  - intros ->. split; [done|].
    by destruct (after_requests_frame (get_requests (submission p)) p) as (_ & -> & _).
  - intros r Hsome. rewrite too_many_requests_truthy, Hsome.
    by rewrite bool_decide_eq_true_2 by eauto.
Qed.

(** X13. The DSP claim lifts the general threshold and the limit on the
    number of requests: a submission with the claim whose pairs are all
    within the DSP threshold and not past due is not escalated, however many
    pairs it has and whatever the general threshold is, zero and below
    included. *)
Theorem dsp_claim_lifts_general_limits p :
  claims_dsp (submission p) = true ->
  readable (student p) (get_requests (submission p)) ->
  Forall (fun request =>
            days_of p request <= get_auto_approve_threshold_dsp env
            /\ is_past_due request.1 (get_timestamp (submission p)) = false)
    (get_requests (submission p)) ->
  process_submission env p
  = (Return None, after_requests (get_requests (submission p)) p).
Proof.
  intros Hdsp Hr Hin.
  rewrite (process_submission_read _ Hr), reason_after_quiet.
  - unfold too_many_requests. by rewrite Hdsp.
  - eapply Forall_impl; [exact Hin|]. intros request [Hle Hdue].
    apply bool_decide_eq_false. unfold flag_cases. rewrite Hdsp, Hdue. simpl.
    rewrite Z.gtb_ltb, (proj2 (Z.ltb_ge _ _)) by lia. by intros [? ?].
Qed.

(** X14. A request for an assignment that is past due always escalates,
    whatever the day count, the claim and the thresholds; when the day count
    is within the threshold that applies, the reason it sets is the
    retroactive one. *)
Theorem past_due_escalates p request :
  is_past_due request.1 (get_timestamp (submission p)) = true ->
  escalates env p request = true
  /\ (days_of p request <= (if claims_dsp (submission p)
                            then get_auto_approve_threshold_dsp env
                            else get_auto_approve_threshold env) ->
      forall nh,
        flag_cases env (submission p) request.1 (days_of p request) nh
        = Some reason_retroactive).
Proof.
  intros Hdue. split.
  - apply bool_decide_eq_true. unfold flag_cases. rewrite Hdue.
    repeat match goal with |- context [if ?b then _ else _] => destruct b end; eauto.
  - intros Hle nh. unfold flag_cases. rewrite Hdue.
    destruct (claims_dsp (submission p)); simpl;
      by rewrite Z.gtb_ltb, (proj2 (Z.ltb_ge _ _)) by lia.
Qed.

Lemma effective_days_max existing n :
  existing <> 0 -> effective_days (Some existing) n = Z.max n existing.
Proof.
  intros Hx. unfold effective_days, keeps_existing. simpl.
  apply Z.eqb_neq in Hx. rewrite Hx. simpl.
  destruct (n <=? existing) eqn:Hle; simpl; lia.
Qed.

(** X15. What a pair queues is never below what is on file: with a granted
    length other than zero on file, the value queued on the student's record
    is the larger of the requested days and that length. *)
Theorem queued_is_max a n nh p existing :
  get_request (student p) (get_id a) = Return (Some existing) ->
  existing <> 0 ->
  write_queue (student (process_request env a n nh p).2)
  = (write_queue (student p) ++ [(get_id a, VInt (Z.max n existing))])%list.
Proof.
  intros He Hx. rewrite (process_request_read _ _ _ _ _ _ He).
  unfold after_request. rewrite (granted_read _ _ _ He). simpl.
  by rewrite (effective_days_max _ _ Hx).
Qed.

End loop.

(** ** Emails, Slack and the order of the steps *)

Section steps.
Context {externals : Externals}.
Variable env : Environment.
Implicit Types (p : Policy) (silent : bool).

Lemma quiet_ret {A} (a : A) : quiet (ret a).
Proof. by intros p. Qed.

Lemma quiet_bind {A B} (m : M A) (k : A -> M B) :
  quiet m -> (forall a, quiet (k a)) -> quiet (bind m k).
Proof.
  intros Hm Hk p. unfold bind. specialize (Hm p).
  destruct (m p) as [[a|e] p1]; simpl in *; [|done].
  by rewrite (Hk a p1).
Qed.

Lemma quiet_on_student {A} (m : method A) : quiet (on_student m).
Proof. intros p. unfold on_student. by destruct (m _ _) as [[r s] sh]. Qed.

Lemma quiet_on_partner {A} name (m : method A) : quiet (on_partner name m).
Proof.
  intros p. unfold on_partner. destruct (partner p) as [q|]; [|done].
  by destruct (m _ _) as [[r s] sh].
Qed.

Lemma quiet_slack_call c : quiet (slack_call c).
Proof. by intros p. Qed.

Lemma quiet_read {A} (f : Policy -> outcome A) : quiet (fun p => (f p, p)).
Proof. by intros p. Qed.

Lemma quiet_state {A} (f : Policy -> M A) :
  (forall q, quiet (f q)) -> quiet (fun p => f p p).
Proof. intros H p. apply H. Qed.

Ltac quiet_step :=
  first [ apply quiet_ret | apply quiet_slack_call | apply quiet_on_student
        | apply quiet_on_partner | apply quiet_bind; [|intros ?] ].

Lemma quiet_process_request a n nh : quiet (process_request env a n nh).
Proof.
  unfold process_request.
  apply quiet_bind; [apply (quiet_read (fun p => get_request (student p) (get_id a)))|].
  intros existing. apply quiet_bind; [destruct (keeps_existing _ _); repeat quiet_step|].
  intros days. apply quiet_bind; [apply (quiet_read (fun p => Return _))|].
  intros reason. repeat quiet_step.
  apply (quiet_state (fun q p =>
    if is_partner_assignment a && bool_decide (is_Some (partner q))
    then on_partner "queue_write_back" _ p else ret tt p)).
  intros q. destruct (_ && _); [apply quiet_on_partner | apply quiet_ret].
Qed.

Lemma quiet_process_requests requests nh : quiet (process_requests env requests nh).
Proof.
  revert nh. induction requests as [|[a n] requests IH]; intros nh; simpl.
  - apply quiet_ret.
  - apply quiet_bind; [apply quiet_process_request | intros; apply IH].
Qed.

Lemma quiet_mark_pending : quiet mark_pending.
Proof.
  unfold mark_pending. repeat quiet_step.
  apply (quiet_state (fun q p =>
    if bool_decide (is_Some (partner q))
    then (on_partner "set_status_pending" set_status_pending ;;
          on_partner "flush" flush) p
    else ret tt p)).
  intros q. destruct (bool_decide _); [|apply quiet_ret].
  apply quiet_bind; [apply quiet_on_partner | intros; apply quiet_on_partner].
Qed.

Lemma quiet_process_submission : quiet (process_submission env).
Proof.
  unfold process_submission.
  apply (quiet_state (fun q p =>
    (needs_human <-
       process_requests env (get_requests (submission q))
         (too_many_requests env (submission q)) ;;
     (if truthy_opt_str needs_human then mark_pending else ret tt) ;;
     ret needs_human) p)).
  intros q. apply quiet_bind; [apply quiet_process_requests|]. intros nh.
  apply quiet_bind; [|intros; apply quiet_ret].
  destruct (truthy_opt_str nh); [apply quiet_mark_pending | apply quiet_ret].
Qed.

Lemma quiet_check_work_in_progress : quiet check_work_in_progress.
Proof.
  intros p. unfold check_work_in_progress.
  destruct (_ && _).
  - apply quiet_bind; [apply quiet_on_student|]. intros _. repeat quiet_step.
  - apply quiet_bind.
    + destruct (has_partner _); [|apply quiet_ret].
      intros q. unfold partner_has_wip_status. by destruct (partner q).
    + intros wip. destruct wip; [repeat quiet_step|].
      destruct (has_wip_status _); repeat quiet_step.
Qed.

Lemma quiet_check_for_warnings : quiet check_for_warnings.
Proof.
  intros p. unfold check_for_warnings. apply quiet_bind.
  - destruct (claims_dsp _); [|apply quiet_ret].
    intros q. by destruct (is_dsp (student q)).
  - intros b. destruct (_ && _); repeat quiet_step.
Qed.

Lemma quiet_approve : quiet approve.
Proof.
  unfold approve. repeat quiet_step.
  apply (quiet_state (fun q p =>
    if negb (bool_decide (is_Some (partner q))) then ret approved_alone p
    else (on_partner "set_status_approved" set_status_approved ;;
          on_partner "flush" flush ;;
          ret approved_with_partner) p)).
  intros q. destruct (negb _); [apply quiet_ret|].
  apply quiet_bind; [apply quiet_on_partner | intros].
  apply quiet_bind; [apply quiet_on_partner | intros; apply quiet_ret].
Qed.

Lemma bind_return {A B} (m : M A) (k : A -> M B) p b p' :
  bind m k p = (Return b, p') ->
  exists a p1, m p = (Return a, p1) /\ k a p1 = (Return b, p').
Proof.
  unfold bind. destruct (m p) as [[a|e] p1]; [eauto | done].
Qed.

(** A call of [approve] that returns has told Slack of the approval. *)
Lemma approve_announces p p' :
  approve p = (Return tt, p') -> approval_announced p'.
Proof.
  unfold approve.
  intros (_ & p1 & _ & (_ & p2 & _ & (message & p3 & _ & H)%bind_return)%bind_return)
    %bind_return.
  unfold slack_call in H. injection H as <-. exists message. simpl.
  apply elem_of_app. right. apply list_elem_of_singleton. done.
Qed.

Lemma send_emails_slack silent p : slack (send_emails silent p).2 = slack p.
Proof.
  unfold send_emails, bind, send_email, ret. destruct silent; simpl; [done|].
  destruct (email_send (student p)); simpl; [done|].
  destruct (partner p) as [q|]; simpl; [|done].
  by destruct (email_send q).
Qed.

Lemma apply_started silent p :
  emails (started silent p) = emails p
  /\ apply env silent p
     = (if negb (knows_assignments (submission (started silent p))) then
          (on_student set_status_requested_meeting ;;
           slack_call
             (send_student_update "A student requested a student support meeting." false))
            (started silent p)
        else
          (needs_human <- process_submission env ;;
           if truthy_opt_str needs_human then
             slack_call (send_student_update
               ("An extension request needs review (" +:+ default "" needs_human +:+ ").")
               false)
           else
             work_in_progress <- check_work_in_progress ;;
             if truthy_opt_str work_in_progress then
               slack_call (send_student_update (default "" work_in_progress) false)
             else approve_and_email silent) (started silent p)).
Proof. by destruct silent. Qed.

(** X16. No confirmation email without an approval: whatever the
    submission, the records and the methods left open do, an evaluation
    either sends no email at all, or it runs aloud and has told Slack of the
    automatic approval before.  A silent evaluation never sends an email. *)
Theorem email_only_after_approval silent p :
  emails (apply env silent p).2 = emails p
  \/ (silent = false /\ approval_announced (apply env silent p).2).
Proof.
  destruct (apply_started silent p) as [Hstart ->]. rewrite <- Hstart.
  generalize (started silent p). clear p Hstart. intros p.
  destruct (negb _).
  { left. apply quiet_bind; [apply quiet_on_student | intros; apply quiet_slack_call]. }
  unfold bind. pose proof (quiet_process_submission p) as H1.
  destruct (process_submission env p) as [[nh|e] p1]; simpl in H1; [|by left].
  rewrite <- H1. clear H1 p. destruct (truthy_opt_str nh); [by left|].
  unfold bind. pose proof (quiet_check_work_in_progress p1) as H2.
  destruct (check_work_in_progress p1) as [[wip|e] p2]; simpl in H2; [|by left].
  rewrite <- H2. clear H2 p1. destruct (truthy_opt_str wip); [by left|].
  unfold approve_and_email. unfold bind.
  pose proof (quiet_check_for_warnings p2) as H3.
  destruct (check_for_warnings p2) as [[[]|e] p3]; simpl in H3; [|by left].
  rewrite <- H3. clear H3 p2. unfold bind.
  pose proof (quiet_approve p3) as H4.
  destruct (approve p3) as [[[]|e] p4] eqn:Happrove; simpl in H4; [|by left].
  rewrite <- H4. clear H4. apply approve_announces in Happrove.
  destruct silent; [by left|]. right. split; [done|].
  destruct Happrove as [message Hin]. exists message.
  by rewrite send_emails_slack.
Qed.

Lemma check_work_in_progress_clear p :
  has_wip_status (student p) = false ->
  (has_partner (submission p) = true ->
   exists q, partner p = Some q /\ has_wip_status q = false) ->
  check_work_in_progress p = (Return None, p).
Proof.
  intros Hs Hq. unfold check_work_in_progress.
  rewrite Hs, andb_false_r. unfold bind at 1.
  destruct (has_partner (submission p)); simpl; [|done].
  destruct Hq as (q & Hq & Hw); [done|].
  unfold partner_has_wip_status. by rewrite Hq, Hw.
Qed.

(** X17. The check for work in progress lets the evaluation through
    exactly when nobody has work in progress: it returns [None] with the
    state untouched if and only if the student has none and, when the
    submission names a partner, the partner is on record and has none. *)
Theorem no_work_in_progress p :
  check_work_in_progress p = (Return None, p)
  <-> has_wip_status (student p) = false
      /\ (has_partner (submission p) = true ->
          exists q, partner p = Some q /\ has_wip_status q = false).
Proof.
  unfold check_work_in_progress. split.
  - destruct (has_partner (submission p)) eqn:Hp; simpl.
    + destruct (has_wip_status (student p)) eqn:Hs.
      { intros (_ & p1 & _ & (_ & p2 & _ & (_ & p3 & _ & [=])%bind_return)%bind_return)
          %bind_return. }
      intros (wip & p1 & Hw & H)%bind_return.
      unfold partner_has_wip_status in Hw. destruct (partner p) as [q|]; [|done].
      injection Hw as <- <-. destruct (has_wip_status q) eqn:Hq.
      { by apply bind_return in H
          as (_ & ? & _ & (_ & ? & _ & (_ & ? & _ & [=])%bind_return)%bind_return). }
      split; [done|]. intros _. eauto.
    + unfold bind at 1. simpl.
      destruct (has_wip_status (student p)) eqn:Hs; [|done].
      by intros (_ & ? & _ & [=])%bind_return.
  - intros [Hs Hq]. fold check_work_in_progress. by apply check_work_in_progress_clear.
Qed.

(** X18. An email to the student that fails ends the evaluation with
    [KnownError]: the partner's email is not attempted, and the records and
    the sheet stay as the approval left them. *)
Theorem student_email_failure p err :
  email_send (student p) = Some err ->
  exists message,
    send_emails false p
    = (Raise (KnownError message), set_emails p (emails p ++ [student p])).
Proof.
  intros He. unfold send_emails, bind, send_email. simpl. rewrite He. eauto.
Qed.

End steps.

(** ** Extending deadlines on Gradescope *)

Section gradescope.
Import gradescope.
Context {client : GradescopeClient}.
Variable repr_urls : list string -> string.
Implicit Types (urls : list string) (email : string) (due : Z).

Lemma apply_extension_loop_found all_urls email due urls warnings created :
  Forall (fun url => is_Some (get_student url email)) urls ->
  exists new_warnings new_created,
    apply_extension_loop repr_urls all_urls email due urls warnings created
    = ((warnings ++ new_warnings)%list, (created ++ new_created)%list)
    /\ (length new_warnings + length new_created = length urls)%nat
    /\ Forall (fun w => exists err, w = warning_not_extended repr_urls email all_urls err)
         new_warnings
    /\ Forall (fun c : string * Z * Z =>
                 c.1.1 ∈ urls /\ get_student c.1.1 email = Some c.1.2 /\ c.2 = due)
         new_created
    /\ (new_warnings = [] <-> Forall (extended email due) urls).
Proof.
  intros H. revert warnings created.
  induction H as [|url urls [user_id Hu] _ IH]; intros warnings created; simpl.
  - exists [], []. rewrite !app_nil_r. repeat split; by constructor.
  - rewrite Hu. destruct (create_extension url user_id due) as [err|] eqn:Hc.
    + destruct (IH (warnings ++ [warning_not_extended repr_urls email all_urls err])%list
                  created) as (ws & cs & -> & Hlen & Hws & Hcs & _).
      exists (warning_not_extended repr_urls email all_urls err :: ws), cs.
      rewrite <- app_assoc. split; [done|]. split; [simpl; lia|].
      split; [constructor; eauto|]. split.
      * eapply Forall_impl; [exact Hcs|]. intros c (? & ? & ?).
        split; [by apply list_elem_of_further | done].
      * split; [done|]. intros Hall. apply Forall_cons in Hall as [(u & Hu' & Hc') _].
        congruence.
    + destruct (IH warnings (created ++ [(url, user_id, due)])%list)
        as (ws & cs & -> & Hlen & Hws & Hcs & Hnil).
      exists ws, ((url, user_id, due) :: cs).
      rewrite <- app_assoc. split; [done|]. split; [simpl; lia|].
      split; [done|]. split.
      * constructor; [split; [apply list_elem_of_here | done]|].
        eapply Forall_impl; [exact Hcs|]. intros c (? & ? & ?).
        split; [by apply list_elem_of_further | done].
      * rewrite Hnil. split; [intros ?; constructor; [by exists user_id | done]|].
        by intros [_ ?]%Forall_cons.
Qed.

Lemma apply_extension_loop_app all_urls email due urls1 urls2 warnings created :
  Forall (fun url => is_Some (get_student url email)) urls1 ->
  apply_extension_loop repr_urls all_urls email due (urls1 ++ urls2) warnings created
  = let done1 := apply_extension_loop repr_urls all_urls email due urls1 warnings created in
    apply_extension_loop repr_urls all_urls email due urls2 done1.1 done1.2.
Proof.
  intros H. revert warnings created.
  induction H as [|url urls [user_id Hu] _ IH]; intros warnings created; simpl; [done|].
  rewrite Hu. destruct (create_extension url user_id due); apply IH.
Qed.

(** X19. When the student is on the roster of every course,
    [apply_extension] accounts for every URL once, by an extension created
    for that student and that due date or by a warning that it could not be
    created; it returns no warning exactly when every extension was
    created. *)
Theorem apply_extension_all_found urls email due :
  Forall (fun url => is_Some (get_student url email)) urls ->
  let result := apply_extension repr_urls urls email due in
  (length result.1 + length result.2 = length urls)%nat
  /\ Forall (fun w => exists err, w = warning_not_extended repr_urls email urls err)
       result.1
  /\ Forall (fun c : string * Z * Z =>
               c.1.1 ∈ urls /\ get_student c.1.1 email = Some c.1.2 /\ c.2 = due)
       result.2
  /\ (result.1 = [] <-> Forall (extended email due) urls).
Proof.
  intros H result. subst result. unfold apply_extension.
  by destruct (apply_extension_loop_found urls email due urls [] [] H)
    as (ws & cs & -> & ? & ? & ? & ?).
Qed.

(** X20. The first course on which the student is not found ends the
    whole call: the warning that the student was not found is the last one
    returned, and no extension is created for that URL or for any URL after
    it, also where the student would have been found. *)
Theorem apply_extension_stops_at_missing_student before url after email due :
  Forall (fun u => is_Some (get_student u email)) before ->
  get_student url email = None ->
  let result := apply_extension repr_urls (before ++ url :: after) email due in
  last result.1 = Some (warning_not_found email)
  /\ (length result.1 + length result.2 = S (length before))%nat
  /\ Forall (fun c : string * Z * Z => c.1.1 ∈ before) result.2.
Proof.
  intros Hb Hu result. subst result. unfold apply_extension.
  rewrite (apply_extension_loop_app _ _ _ _ _ _ _ Hb).
  destruct (apply_extension_loop_found (before ++ url :: after) email due before [] [] Hb)
    as (ws & cs & -> & Hlen & _ & Hcs & _).
  simpl. rewrite Hu. simpl. split; [by rewrite last_snoc|].
  split; [rewrite length_app; simpl; lia|].
  eapply Forall_impl; [exact Hcs|]. by intros c (? & _).
Qed.

End gradescope.

(** ** The further statements on concrete rows *)

Section on_the_cases.
Import scenario cases gradescope.

Lemma dispatch_writes_read_back_witness :
  table_record (dispatch_writes queued_row roster_sheet).1.2 !! "hw1" = Some (VInt 5).
Proof.
  apply (dispatch_writes_read_back queued_row roster_sheet _
           (dispatch_writes queued_row roster_sheet).2 "hw1").
  vm_compute. reflexivity.
Defined.

Lemma queued_days_read_back_witness :
  get_assignment
    (dispatch_writes (queue_write_back (row false (VStr "")) "hw1" (VInt 4))
       roster_sheet).1.2 "hw1"
  = Return (Some 4).
Proof.
  apply (queued_days_read_back (row false (VStr "")) roster_sheet _
           (dispatch_writes (queue_write_back (row false (VStr "")) "hw1" (VInt 4))
              roster_sheet).2).
  vm_compute. reflexivity.
Defined.

Lemma dispatch_writes_unknown_column_witness :
  (dispatch_writes stray_row roster_sheet).1.1 = Raise (ValueError "'hw9' is not in list")
  /\ cell_writes (dispatch_writes stray_row roster_sheet).2 = [(3, 4%nat, VInt 3)]
  /\ write_queue (dispatch_writes stray_row roster_sheet).1.2 = write_queue stray_row.
Proof.
  rewrite (dispatch_writes_unknown_column stray_row roster_sheet
             [("hw1", VInt 3)] "hw9" (VInt 2) [("hw2", VInt 1)] eq_refl).
  - split; [reflexivity|]. split; reflexivity.
  - repeat constructor.
  - apply index_None. reflexivity.
Defined.

Lemma dispatch_writes_cells_witness :
  exists cells,
    cell_writes (dispatch_writes queued_row roster_sheet).2
    = (cell_writes roster_sheet ++ cells)%list
    /\ length cells = 3%nat.
Proof.
  destruct (dispatch_writes_cells queued_row roster_sheet
              (dispatch_writes queued_row roster_sheet).1.2
              (dispatch_writes queued_row roster_sheet).2)
    as (cells & Hcells & Hall); [vm_compute; reflexivity|].
  exists cells. split; [exact Hcells|].
  apply Forall2_length in Hall. rewrite <- Hall. reflexivity.
Defined.

Lemma existing_request_count_counts_witness :
  existing_request_count (row false (VStr "5")) ["hw1"; "hw2"; "proj1"] = Return 1.
Proof.
  destruct (existing_request_count_counts (row false (VStr "5")) ["hw1"; "hw2"; "proj1"])
    as (count & -> & -> & _).
  - repeat constructor; eexists; reflexivity.
  - reflexivity.
Defined.

Lemma existing_request_count_raises_witness :
  exists err, existing_request_count garbled_row ["hw2"; "hw1"; "proj1"] = Raise err.
Proof.
  eexists.
  apply (existing_request_count_raises garbled_row ["hw2"] "hw1" ["proj1"]).
  - repeat constructor. eexists. reflexivity.
  - reflexivity.
Defined.

Lemma unreadable_cell_aborts_witness :
  let p := @evaluation (form false [(hw2, 3); (hw1, 2)]) garbled_row in
  exists err,
    @apply due_100 env_7 false p
    = (Raise err, @after_requests [(hw2, 3)] p)
    /\ sheet_records (@after_requests [(hw2, 3)] p) = roster_sheet.
Proof.
  intros p.
  edestruct (@unreadable_cell_aborts due_100 env_7 false p [(hw2, 3)] [] hw1 2)
    as (Happly & Hsheet & _); [reflexivity | reflexivity | repeat constructor
                              | reflexivity |].
  eexists. split; [exact Happly | exact Hsheet].
Defined.

Lemma any_escalation_escalates_witness :
  let p := evaluation (form false [(hw1, 9); (hw2, 1)]) (row false (VStr "")) in
  exists r, r <> EmptyString /\ (@process_submission due_100 env_7 p).1 = Return (Some r).
Proof.
  intros p.
  destruct (@any_escalation_escalates due_100 env_7 p (hw1, 9))
    as (r & Hr & Heq); [repeat constructor | repeat constructor | reflexivity |].
  exists r. split; [exact Hr|]. rewrite Heq. reflexivity.
Defined.

Lemma no_pair_escalates_witness :
  let p := evaluation (form false [(hw1, 3)]) (row false (VStr "")) in
  (@process_submission due_100 env_7 p).1 = Return None
  /\ sheet_records (@process_submission due_100 env_7 p).2 = roster_sheet.
Proof.
  intros p.
  destruct (@no_pair_escalates due_100 env_7 p) as [Hnone _];
    [repeat constructor | repeat constructor |].
  destruct (Hnone eq_refl) as [-> Hsheet]. split; [reflexivity | exact Hsheet].
Defined.

Lemma dsp_claim_lifts_general_limits_witness :
  let p := evaluation (form true [(hw1, 10); (hw2, 12); (project, 14)])
             (row true (VStr "")) in
  (@process_submission due_100 env_0 p).1 = Return None.
Proof.
  intros p.
  rewrite (@dsp_claim_lifts_general_limits due_100 env_0 p); [reflexivity |..].
  - reflexivity.
  - repeat constructor.
  - repeat constructor; simpl; vm_compute; discriminate.
Defined.

Lemma past_due_escalates_witness :
  let p := evaluation (form false [(hw1, 1)]) (row false (VStr "")) in
  @escalates due_10 env_7 p (hw1, 1) = true
  /\ @flag_cases due_10 env_7 (submission p) hw1 1 None = Some reason_retroactive.
Proof.
  intros p.
  destruct (@past_due_escalates due_10 env_7 p (hw1, 1) eq_refl) as [Hesc Hretro].
  split; [exact Hesc|]. apply (Hretro ltac:(vm_compute; discriminate) None).
Defined.

Lemma queued_is_max_witness :
  write_queue
    (student (@process_request due_100 env_7 hw1 8 None
                (evaluation (form false [(hw1, 8)]) (row false (VStr "5")))).2)
  = [("hw1", VInt 8)].
Proof.
  apply (@queued_is_max due_100 env_7 hw1 8 None
           (evaluation (form false [(hw1, 8)]) (row false (VStr "5"))) 5);
    [reflexivity | lia].
Defined.

Lemma student_email_failure_witness :
  let p := evaluation_with_partner (form false [(project, 3)]) (row false (VStr "")) in
  exists message,
    @send_emails bounced false p
    = (Raise (KnownError message), set_emails p [row false (VStr "")]).
Proof.
  intros p. exact (@student_email_failure bounced p "connection refused" eq_refl).
Defined.

Lemma apply_extension_all_found_witness :
  let result :=
    @apply_extension campus listing ["cs161/hw1"; "cs161/hw2"; "cs161/hw3"]
      "oski@berkeley.edu" 1700 in
  (length result.1 + length result.2 = 3)%nat.
Proof.
  intros result.
  refine (proj1 (@apply_extension_all_found campus listing
                   ["cs161/hw1"; "cs161/hw2"; "cs161/hw3"] "oski@berkeley.edu" 1700 _)).
  repeat constructor; eexists; reflexivity.
Defined.

Lemma apply_extension_stops_at_missing_student_witness :
  let result :=
    @apply_extension campus listing ["cs161/hw1"; "cs188/hw1"; "cs161/hw3"]
      "oski@berkeley.edu" 1700 in
  last result.1 = Some (warning_not_found "oski@berkeley.edu")
  /\ (length result.1 + length result.2 = 2)%nat
  /\ Forall (fun c : string * Z * Z => c.1.1 ∈ ["cs161/hw1"]) result.2.
Proof.
  intros result.
  refine (@apply_extension_stops_at_missing_student campus listing
            ["cs161/hw1"] "cs188/hw1" ["cs161/hw3"] "oski@berkeley.edu" 1700 _ eq_refl).
  repeat constructor; eexists; reflexivity.
Defined.

End on_the_cases.

(** ** From the submission to the outcome *)

Section outcome.
Context {externals : Externals}.
Variable env : Environment.
Implicit Types (p : Policy) (silent : bool).

(** X21. A submission with a pair that escalates ends at step 2: after
    every pair has queued its write the records are marked pending, and
    when that returns Slack gets one update that names a reason; the check
    for work in progress, the approval and the emails are not run. *)
Theorem escalation_ends_evaluation silent p request :
  knows_assignments (submission p) = true ->
  readable (student p) (get_requests (submission p)) ->
  request ∈ get_requests (submission p) ->
  escalates env p request = true ->
  exists r,
    r <> EmptyString
    /\ apply env silent p
       = (mark_pending ;;
          slack_call (send_student_update
                        ("An extension request needs review (" +:+ r +:+ ").") false))
           (after_requests (get_requests (submission p)) (started silent p)).
Proof.
  intros Hk Hr Hin Hesc. destruct (apply_started env silent p) as [_ ->].
  assert (knows_assignments (submission (started silent p)) = true) as ->
    by (by destruct silent).
  destruct (process_submission_escalates env (started silent p) request)
    as (r & Hne & Heq); [by destruct silent..|].
  exists r. split; [done|]. simpl. unfold bind at 1. rewrite Heq.
  assert (get_requests (submission (started silent p)) = get_requests (submission p))
    as -> by (by destruct silent).
  unfold bind. destruct (mark_pending _) as [[[]|e] q]; simpl; [|done].
  by destruct r.
Qed.

(** X22. A submission that knows its assignments, is within the limit on
    the number of requests, has no pair that escalates and meets no work in
    progress goes on to steps 4 to 6, approval and emails, on the state in
    which every pair has queued its write and nothing was dispatched or set
    before. *)
Theorem clean_submission_is_approved silent p :
  knows_assignments (submission p) = true ->
  readable (student p) (get_requests (submission p)) ->
  too_many_requests env (submission p) = None ->
  Forall (fun request => escalates env p request = false) (get_requests (submission p)) ->
  let queued := after_requests (get_requests (submission p)) (started silent p) in
  has_wip_status (student queued) = false ->
  (has_partner (submission p) = true ->
   exists q, partner queued = Some q /\ has_wip_status q = false) ->
  apply env silent p = approve_and_email silent queued.
Proof.
  intros Hk Hr Htoo Hq queued Hs Hp. subst queued.
  apply (apply_clear env silent p
           (after_requests (get_requests (submission p)) (started silent p))
           (after_requests (get_requests (submission p)) (started silent p))
           None None); [done | | done | | done].
  - change (if silent then set_slack p (slack p ++ [suppress]) else p)
      with (started silent p).
    rewrite process_submission_read by (by destruct silent).
    assert (get_requests (submission (started silent p)) = get_requests (submission p)
            /\ too_many_requests env (submission (started silent p)) = None)
      as [-> ->] by (by destruct silent).
    rewrite reason_after_quiet by (by destruct silent). done.
  - apply check_work_in_progress_clear; [done|].
    destruct (after_requests_frame (get_requests (submission p)) (started silent p))
      as (-> & _). intros H. apply Hp. by destruct silent.
Qed.

End outcome.

Section on_the_outcomes.
Import scenario cases.

Lemma escalation_ends_evaluation_witness :
  let p := evaluation (form false [(hw1, 9)]) (row false (VStr "")) in
  exists r,
    slack (@apply due_100 env_7 false p).2
    = [send_student_update ("An extension request needs review (" +:+ r +:+ ").") false]
    /\ emails (@apply due_100 env_7 false p).2 = [].
Proof.
  intros p.
  destruct (@escalation_ends_evaluation due_100 env_7 false p (hw1, 9))
    as (r & _ & Heq); [reflexivity | repeat constructor | repeat constructor
                      | reflexivity |].
  exists r. rewrite Heq. split; reflexivity.
Defined.

Lemma clean_submission_is_approved_witness :
  let p := evaluation (form false [(hw1, 3)]) (row false (VStr "")) in
  slack (@apply due_100 env_7 false p).2
  = [send_student_update "An extension request was automatically approved!" true]
  /\ length (emails (@apply due_100 env_7 false p).2) = 1%nat.
Proof.
  intros p.
  rewrite (@clean_submission_is_approved due_100 env_7 false p);
    [split; vm_compute; reflexivity | reflexivity | repeat constructor | reflexivity
    | repeat constructor | reflexivity | discriminate].
Defined.

End on_the_outcomes.

(** ** The meeting path with the status setter of the specification *)

Section meeting.
Context {externals : Externals}.
Variable env : Environment.


End meeting.

Section on_the_meeting.
Import scenario.



End on_the_meeting.
